(** * xud: the Connext swap client and the order packet

    A shallow embedding of [ConnextClient] (the Connext adapter of the swap
    client contract) and of [OrderPacket] (the order packet of the p2p
    layer), with the properties of the swap execution subsystem that the
    specification states about them.

    The adapter is asynchronous JavaScript.  Every [await] in it is
    sequential, so an [async] method is read as a computation that threads
    the adapter's fields and the list of HTTP requests issued so far, and
    that ends resolved with a value, rejected with a thrown value, or not at
    all: a promise whose callback throws before it calls [resolve] or
    [reject], or is never called, is never settled (the adapter sets no
    timeout of its own).  The Connext node is a parameter: any function from
    the requests received so far and the present request to what
    [http.request] reports, if anything.

    A response is what the adapter can observe of it: the status code, and
    whether the text of the body is JSON, and then for which value, or is
    not, or is cut short by an error of the stream.  The value is untyped,
    as it is in JavaScript: the response types that the adapter declares
    are erased when it runs.

    What the embedding leaves out or takes for granted:
    - calls of the logger, which influence neither results nor requests;
    - the strings of the adapter (hashes, addresses, preimages, paths) are
      sequences of 8-bit characters, and the numbers of a deal hold
      integers;
    - the tables [errors] and [errorCodes], [swapErrors], the unit converter
      and the base class [SwapClient] are not among the sources: the first
      are parameters, the last is modelled where the adapter calls it; the
      message that the engine gives a [TypeError] is a parameter as well.

    The packet is serialised with [JSON.stringify] and read with
    [JSON.parse].  Both are modelled on UTF-16 code units after ECMA-262;
    how a finite number is written and read is a parameter, instantiated
    with the integers in decimal notation where a run is needed. *)

From Stdlib Require Import ZArith QArith String Ascii List Bool Lia DecimalPos DecimalZ.
From stdpp Require Import base option gmap strings pretty.
Import ListNotations.

Local Open Scope Z_scope.
Local Open Scope string_scope.

(** ** JavaScript preliminaries *)

Module Js.

(** Truthiness of a value of type [string | undefined]: [undefined] and
    the empty string are falsy. *)
Definition truthy (v : option string) : bool :=
  match v with
  | Some s => negb (String.eqb s "")
  | None => false
  end.

(** [s.startsWith(p)] *)
Definition startsWith (s p : string) : bool := String.prefix p s.

(** [s.slice(n)] for [0 <= n] *)
Fixpoint slice (s : string) (n : nat) {struct n} : string :=
  match n, s with
  | O, _ => s
  | S n', String _ s' => slice s' n'
  | S _, EmptyString => EmptyString
  end.

(** *** Numbers as text

    A number is a double.  One that holds an integer is given by that
    integer, and [Number::toString] of ECMA-262 writes it with the fewest
    digits that still denote it, in full below 10^21 and with an exponent
    from there on. *)

(** The double nearest to a non-negative integer, the one with the even
    significand when two are as near: an integer of at most 53 bits is a
    double itself. *)
Definition toDouble (n : Z) : Z :=
  let bits := Z.log2 n + 1 in
  if (bits <=? 53)%Z then n
  else
    let ulp := 2 ^ (bits - 53) in
    let q := n / ulp in
    let r := n mod ulp in
    let q' :=
      if (2 * r <? ulp)%Z then q
      else if (ulp <? 2 * r)%Z then q + 1
      else if Z.even q then q else q + 1 in
    q' * ulp.

(** The number of decimal digits of a non-negative integer. *)
Definition digits (n : Z) : Z := Z.of_nat (String.length (pretty n)).

(** The integer [s * 10^(n-k)] of step 5 of [Number::toString]: for the
    least number [k] of digits, the [k]-digit decimal next to [x] that
    denotes the double [x], and of two the nearer one.  [d] is the number of
    digits of [x]; with all [d] digits, [x] denotes itself. *)
Fixpoint shortest (x d : Z) (k : nat) (fuel : nat) : Z :=
  match fuel with
  | O => x
  | S fuel' =>
      let p := 10 ^ (d - Z.of_nat k) in
      let lo := x / p * p in
      let hi := lo + p in
      let isLo := (toDouble lo =? x)%Z in
      let isHi := (toDouble hi =? x)%Z in
      if isLo && isHi then
        if (x - lo <? hi - x)%Z then lo
        else if (hi - x <? x - lo)%Z then hi
        else if Z.even (lo / p) then lo else hi
      else if isLo then lo
      else if isHi then hi
      else shortest x d (S k) fuel'
  end.

Fixpoint stripZeros (v : Z) (fuel : nat) : Z :=
  match fuel with
  | O => v
  | S fuel' =>
      if (v mod 10 =? 0)%Z && negb (v =? 0)%Z then stripZeros (v / 10) fuel' else v
  end.

(** Steps 5 to 10 of [Number::toString] for a double that is a non-negative
    integer: up to 21 digits it is written out, beyond that as
    [d.ddd e+n]. *)
Definition integerToString (x : Z) : string :=
  let d := digits x in
  let v := shortest x d 1 (Z.to_nat d) in
  let n := digits v in
  if (n <=? 21)%Z then pretty v
  else
    let s := pretty (stripZeros v (Z.to_nat n)) in
    let e := pretty (n - 1) in
    match s with
    | String c EmptyString => String c ("e+" +:+ e)
    | String c rest => String c ("." +:+ rest +:+ "e+" +:+ e)
    | EmptyString => EmptyString
    end.

(** The template literal [`${n}`] of a number that holds the integer [n].
    An integer that is no double is read as the double nearest to it, which
    is what a numeric literal does; beyond the largest double that is
    [Infinity]. *)
Definition numberToString (n : Z) : string :=
  let x := toDouble (Z.abs n) in
  let text := if (2 ^ 1024 <=? x)%Z then "Infinity" else integerToString x in
  if (n <? 0)%Z then "-" +:+ text else text.

(** *** Values

    What [JSON.parse] gives, and [undefined], which the read of a missing
    property gives.  A number is given by its value, an object by its
    properties, each under its name. *)
#[warnings="-register-all"] Inductive value :=
| Undefined
| Null
| Bool (b : bool)
| Num (x : Q)
| Str (s : string)
| Arr (items : list value)
| Obj (props : list (string * value)).

(** [ToBoolean]: what an [if] and [&&] make of a value. *)
Definition toBoolean (v : value) : bool :=
  match v with
  | Undefined | Null => false
  | Bool b => b
  | Num x => negb (Qnum x =? 0)%Z
  | Str s => negb (String.eqb s "")
  | Arr _ | Obj _ => true
  end.

Fixpoint assoc (k : string) (props : list (string * value)) : value :=
  match props with
  | [] => Undefined
  | (k', v) :: rest => if String.eqb k k' then v else assoc k rest
  end.

(** [v.k] and [const { k } = v], for the property names the adapter reads
    ([message], [code], [preImage], [status], [freeBalance]), none of which
    is a property of a string, an array or a prototype: the property of an
    object, [undefined] on any other value, and a [TypeError] ([None]) on
    [null] and [undefined]. *)
Definition get (v : value) (k : string) : option value :=
  match v with
  | Undefined | Null => None
  | Obj props => Some (assoc k props)
  | Bool _ | Num _ | Str _ | Arr _ => Some Undefined
  end.

(** [v === s] for a string [s], as a [case] of a [switch] tests it. *)
Definition strictEquals (v : value) (s : string) : bool :=
  match v with
  | Str s' => String.eqb s' s
  | _ => false
  end.

End Js.

(** ** Enumerations and records the adapter works on *)

(** Modelled from the spec: [SwapRole] of [../constants/enums], the two
    roles of a trade. *)
Module SwapRole.
Inductive t := Taker | Maker.
End SwapRole.

(** Modelled from the spec: [SwapState] of [../constants/enums], the deal
    states [Created -> Active -> {Completed | Failed}]. *)
Module SwapState.
Inductive t := Created | Active | Completed | Failed.
End SwapState.

(** Modelled from the spec: [ClientStatus] of [../swaps/SwapClient]. *)
Module ClientStatus.
Inductive t := NotInitialized | Initialized | ConnectionVerified | Disconnected.
End ClientStatus.

(** [PaymentState] of [../swaps/SwapClient], as [lookupPayment] uses it. *)
Module PaymentState.
Inductive t := Pending | Succeeded | Failed.
End PaymentState.

#[global] Instance SwapRole_eq_dec : EqDecision SwapRole.t.
Proof. solve_decision. Defined.
#[global] Instance SwapState_eq_dec : EqDecision SwapState.t.
Proof. solve_decision. Defined.
#[global] Instance ClientStatus_eq_dec : EqDecision ClientStatus.t.
Proof. solve_decision. Defined.
#[global] Instance PaymentState_eq_dec : EqDecision PaymentState.t.
Proof. solve_decision. Defined.

(** Modelled from the spec: [SwapDeal] of [../swaps/types], with the fields
    [sendPayment] reads.  Optional fields ([destination?], [rPreimage?],
    [makerCltvDelta?]) are options; unit amounts are numbers that hold an
    integer, the count of the currency's smallest unit. *)
Record SwapDeal := {
  role : SwapRole.t;
  state : SwapState.t;
  rHash : string;
  rPreimage : option string;
  destination : option string;
  makerCurrency : string;
  takerCurrency : string;
  makerUnits : Z;
  takerUnits : Z;
  makerCltvDelta : option Z;
}.

(** [ChannelBalance] of [../swaps/SwapClient]. *)
Record ChannelBalance := {
  balance : Z;
  pendingOpenBalance : Z;
  inactiveBalance : Z;
}.

(** ** HTTP exchange with the Connext REST API *)

(** The payload of [executeHashLockTransfer], as [sendPayment] and
    [sendSmallestAmount] build it: [{ amount, assetId, lockHash, timelock }].
    [assetId] is the result of [Map.get] and [timelock] of an optional
    field, so both may be [undefined]. *)
Record TokenPaymentRequest := {
  amount : string;
  assetId : option string;
  lockHash : string;
  timelock : option Z;
}.

(** A field value of a JSON payload. *)
Inductive JsonField :=
| JString (s : string)
| JNumber (n : Z)
| JUndefined.

(** The request payloads the adapter sends. *)
Inductive Payload :=
| TransferPayload (p : TokenPaymentRequest)    (* POST /hashlock-transfer *)
| ResolvePayload (preImage : string)           (* POST /hashlock-resolve  *)
| DepositPayload (amount : Z) (assetId : string)
| MnemonicPayload (mnemonic : string).

Definition optString (o : option string) : JsonField :=
  match o with Some s => JString s | None => JUndefined end.

Definition optNumber (o : option Z) : JsonField :=
  match o with Some n => JNumber n | None => JUndefined end.

(** The object literal behind each payload, property by property. *)
Definition payloadFields (p : Payload) : list (string * JsonField) :=
  match p with
  | TransferPayload r =>
      [("amount", JString (amount r)); ("assetId", optString (assetId r));
       ("lockHash", JString (lockHash r)); ("timelock", optNumber (timelock r))]
  | ResolvePayload pre => [("preImage", JString pre)]
  | DepositPayload a t => [("amount", JNumber a); ("assetId", JString t)]
  | MnemonicPayload m => [("mnemonic", JString m)]
  end.

Record Request := {
  endpoint : string;
  method : string;
  payload : option Payload;
}.

(** The body of a response, as its listeners see it: the stream ends and
    the text is JSON for a value; the stream ends and the text is not JSON,
    as the empty text of a 204 is not; the stream emits ['error']; or it
    does neither, as a stream that is cut off may. *)
Inductive Body :=
| Json (v : Js.value)
| NotJson
| StreamError (code : option string) (msg : string)
| Stalled.

(** [http.IncomingMessage] *)
Record IncomingMessage := {
  statusCode : Z;
  statusMessage : string;
  body : Body;
}.

(** What [http.request] does with a request: the response callback fires,
    the request emits ['error'] with a Node error ([err.code],
    [err.message]), or neither ever happens. *)
Inductive HttpOutcome :=
| Responded (res : IncomingMessage)
| RequestError (code : option string) (msg : string)
| NoAnswer.

(** ** Thrown values *)

(** The entries of [./errors] the adapter throws. *)
Inductive ConnextErrorKind :=
| CONNEXT_IS_DISABLED
| INSUFFICIENT_BALANCE
| TIMEOUT
| SERVER_ERROR
| UNEXPECTED
| TOKEN_ADDRESS_NOT_FOUND
| INVALID_TOKEN_PAYMENT_RESPONSE
| PAYMENT_NOT_FOUND.

#[global] Instance ConnextErrorKind_eq_dec : EqDecision ConnextErrorKind.
Proof. solve_decision. Defined.

(** Where the adapter may run into a [TypeError]. *)
Inductive TypeErrorSite :=
| DestructureOfNull        (* const { k } = v, where v is null *)
| StartsWithOfNonString    (* v.startsWith('0x'), where v is no string *)
| PropertyOfUndefined.     (* err.code or err.message, where err is undefined or null *)

(** What the adapter's own operations reject with: an entry of [./errors],
    the Node error of a failed request or stream, the [body.message] that
    [sendRequest] rejects with on a 409, whatever value that is, or a
    [TypeError] of the engine. *)
Inductive Rejection :=
| ConnextError (k : ConnextErrorKind)
| NodeError (code : option string) (msg : string)
| RejectedValue (v : Js.value)
| TypeError (site : TypeErrorSite).

(** The two classified payment errors of [../swaps/errors]. *)
Inductive SwapErrorKind := UNKNOWN_PAYMENT_ERROR | FINAL_PAYMENT_ERROR.

(** What a public method of the adapter throws.  [SwapError k m] is
    [swapErrors.k(m)], where [m] is the [err.message] handed over. *)
Inductive Thrown :=
| Raw (r : Rejection)
| AssertionError
| JsError (msg : string)
| SwapError (k : SwapErrorKind) (msg : Js.value).

(** ** The monad of adapter computations *)

(** The adapter's mutable fields together with what it did to the outside:
    the requests it issued (oldest first) and the events it emitted. *)
Record Client := {
  status : ClientStatus.t;
  seed : option string;
  tokenAddresses : gmap string string;
  requests : list Request;
  emitted : list string;
}.

(** How a promise ends.  [Unsettled] is the promise that is never settled:
    nothing that awaits it is resumed, no [catch] clause around it runs. *)
Inductive Result (E A : Type) :=
| Resolved (a : A)
| Rejected (e : E)
| Unsettled.
Arguments Resolved {E A} a.
Arguments Rejected {E A} e.
Arguments Unsettled {E A}.

Definition M (E A : Type) : Type := Client -> Result E A * Client.

Definition ret {E A} (a : A) : M E A := fun c => (Resolved a, c).

Definition throw {E A} (e : E) : M E A := fun c => (Rejected e, c).

(** A result that touches no field. *)
Definition lift {E A} (r : Result E A) : M E A := fun c => (r, c).

Definition bind {E A B} (m : M E A) (k : A -> M E B) : M E B :=
  fun c =>
    match m c with
    | (Resolved a, c') => k a c'
    | (Rejected e, c') => (Rejected e, c')
    | (Unsettled, c') => (Unsettled, c')
    end.

(** [try { m } catch (err) { h err }] *)
Definition try_catch {E E' A} (m : M E A) (h : E -> M E' A) : M E' A :=
  fun c =>
    match m c with
    | (Resolved a, c') => (Resolved a, c')
    | (Rejected e, c') => h e c'
    | (Unsettled, c') => (Unsettled, c')
    end.

(** A computation that rejects with adapter errors, run where anything may be
    thrown. *)
Definition raw {A} (m : M Rejection A) : M Thrown A :=
  try_catch m (fun e => throw (Raw e)).

(** [assert(b)] *)
Definition assert (b : bool) : M Thrown unit :=
  if b then ret tt else throw AssertionError.

Declare Scope adapter_scope.
Delimit Scope adapter_scope with adapter.
Notation "x <- m ;; k" := (bind m (fun x => k))
  (at level 100, m at next level, right associativity) : adapter_scope.
Notation "m ;;; k" := (bind m (fun _ => k))
  (at level 100, right associativity) : adapter_scope.
Local Open Scope adapter_scope.

Definition gets {E A} (f : Client -> A) : M E A := fun c => (Resolved (f c), c).

Definition modify {E} (f : Client -> Client) : M E unit :=
  fun c => (Resolved tt, f c).

Definition set_status (s : ClientStatus.t) (c : Client) : Client :=
  {| status := s; seed := seed c; tokenAddresses := tokenAddresses c;
     requests := requests c; emitted := emitted c |}.

Definition set_seed (s : option string) (c : Client) : Client :=
  {| status := status c; seed := s; tokenAddresses := tokenAddresses c;
     requests := requests c; emitted := emitted c |}.

Definition set_tokenAddresses (t : gmap string string) (c : Client) : Client :=
  {| status := status c; seed := seed c; tokenAddresses := t;
     requests := requests c; emitted := emitted c |}.

Definition push_request (r : Request) (c : Client) : Client :=
  {| status := status c; seed := seed c; tokenAddresses := tokenAddresses c;
     requests := requests c ++ [r]; emitted := emitted c |}.

Definition push_event (e : string) (c : Client) : Client :=
  {| status := status c; seed := seed c; tokenAddresses := tokenAddresses c;
     requests := requests c; emitted := emitted c ++ [e] |}.

(** ** The adapter *)

Module SwapClientType.
Inductive t := Lnd | Raiden | Connext.
End SwapClientType.

#[global] Instance SwapClientType_eq_dec : EqDecision SwapClientType.t.
Proof. solve_decision. Defined.

(** [CurrencyInstance] of [../db/types], with the fields the constructor
    reads. *)
Record CurrencyInstance := {
  id : string;
  tokenAddress : option string;
  swapClient : SwapClientType.t;
}.

Section ConnextClient.

(** The Connext node on the other side of the REST API: its reaction to a
    request, given the requests it has received before. *)
Variable backend : list Request -> Request -> HttpOutcome.

(** The table [errorCodes] of [./errors], which is not part of the sources
    at hand: the code of each entry, and its message.  [errors.K] carries
    [code: errorCodes.K]. *)
Variable errorCodes : ConnextErrorKind -> string.
Variable errorMessages : ConnextErrorKind -> string.

(** The message that the engine gives a [TypeError]. *)
Variable engineMessages : TypeErrorSite -> string.

(** [this.unitConverter.unitsToAmount({ currency, units: Number(freeBalance) })],
    of [../utils/UnitConverter]: from the currency and the [freeBalance] of
    the response to an amount, or a throw for an unknown currency. *)
Variable unitsToAmount : string -> Js.value -> Result Thrown Z.

(** [err.code] and [err.message] of a caught value: a property of an error
    object, whatever [Js.get] finds on a rejected value, and a [TypeError]
    ([None]) when that value is [undefined] or [null]. *)
Definition errCode (err : Rejection) : option Js.value :=
  match err with
  | ConnextError k => Some (Js.Str (errorCodes k))
  | NodeError (Some code) _ => Some (Js.Str code)
  | NodeError None _ => Some Js.Undefined
  | RejectedValue v => Js.get v "code"
  | TypeError _ => Some Js.Undefined
  end.

Definition errMessage (err : Rejection) : option Js.value :=
  match err with
  | ConnextError k => Some (Js.Str (errorMessages k))
  | NodeError _ msg => Some (Js.Str msg)
  | RejectedValue v => Js.get v "message"
  | TypeError site => Some (Js.Str (engineMessages site))
  end.

(** [const finalLock = 100] *)
Definition finalLock : Z := 100.

(** Modelled from the spec: [SwapClient.setStatus] of the base class, which
    records the new status. *)
Definition setStatus {E} (s : ClientStatus.t) : M E unit := modify (set_status s).

Definition emit {E} (event : string) : M E unit := modify (push_event event).

Definition disconnect {E} : M E unit := setStatus ClientStatus.Disconnected.

Definition setSeed {E} (s : string) : M E unit := modify (set_seed (Some s)).

(** The constructor's [setTokenAddresses]: currencies with a token address
    that are served by Connext. *)
Definition setTokenAddresses (currencyInstances : list CurrencyInstance)
    (m : gmap string string) : gmap string string :=
  fold_left
    (fun acc currency =>
       match tokenAddress currency with
       | Some t =>
           if Js.truthy (Some t) && bool_decide (swapClient currency = SwapClientType.Connext)
           then <[id currency := t]> acc else acc
       | None => acc
       end)
    currencyInstances m.

(** [new ConnextClient({ currencyInstances, ... })]: no seed, and the
    status the base class starts with. *)
Definition newClient (currencyInstances : list CurrencyInstance) : Client :=
  {| status := ClientStatus.NotInitialized; seed := None;
     tokenAddresses := setTokenAddresses currencyInstances ∅;
     requests := []; emitted := [] |}.

(** The promise of [parseResponseBody(res)].  On ['end'] the listener
    resolves it with [JSON.parse(body)]; when that throws, the exception
    leaves the listener and the promise is never settled.  On ['error'] it
    is rejected with the error of the stream. *)
Definition parsed (res : IncomingMessage) : Result Rejection Js.value :=
  match body res with
  | Json v => Resolved v
  | NotJson => Unsettled
  | StreamError code msg => Rejected (NodeError code msg)
  | Stalled => Unsettled
  end.

Definition parseResponseBody (res : IncomingMessage) : M Rejection Js.value :=
  lift (parsed res).

(** [const { k } = v] *)
Definition destructure (v : Js.value) (k : string) : M Rejection Js.value :=
  match Js.get v k with
  | Some x => ret x
  | None => throw (TypeError DestructureOfNull)
  end.

(** The [switch (res.statusCode)] of the response callback, and with it the
    promise of [sendRequest].  The callback is [async]: on a 409 it awaits
    the body, and when that promise is not resolved, or [body.message]
    throws, the callback ends without a call of [reject]. *)
Definition settle (res : IncomingMessage) : Result Rejection IncomingMessage :=
  let code := statusCode res in
  if (code =? 200)%Z || (code =? 201)%Z || (code =? 204)%Z then Resolved res
  else if (code =? 402)%Z then Rejected (ConnextError INSUFFICIENT_BALANCE)
  else if (code =? 408)%Z then Rejected (ConnextError TIMEOUT)
  else if (code =? 409)%Z then
    match parsed res with
    | Resolved body =>
        match Js.get body "message" with
        | Some message => Rejected (RejectedValue message)
        | None => Unsettled
        end
    | Rejected _ => Unsettled
    | Unsettled => Unsettled
    end
  else if (code =? 500)%Z then Rejected (ConnextError SERVER_ERROR)
  else Rejected (ConnextError UNEXPECTED).

Definition sendRequest (endpoint method : string) (payload : option Payload)
    : M Rejection IncomingMessage :=
  fun c =>
    let req := {| endpoint := endpoint; method := method; payload := payload |} in
    let c' := push_request req c in
    match backend (requests c) req with
    | Responded res => (settle res, c')
    | RequestError code msg =>
        let c'' :=
          if bool_decide (code = Some "ECONNREFUSED")
          then set_status ClientStatus.Disconnected c' else c' in
        (Rejected (NodeError code msg), c'')
    | NoAnswer => (Unsettled, c')
    end.

Definition initWallet (seedMnemonic : string) : M Rejection Js.value :=
  res <- sendRequest "/mnemonic" "POST" (Some (MnemonicPayload seedMnemonic));;
  parseResponseBody res.

Definition initConnextClient : M Rejection Js.value :=
  res <- sendRequest "/connect" "POST" None;;
  parseResponseBody res.

Definition getTokenAddress (currency : string) : M Rejection string :=
  tokenAdress <- gets (fun c => tokenAddresses c !! currency);;
  if negb (Js.truthy tokenAdress) then throw (ConnextError TOKEN_ADDRESS_NOT_FOUND)
  else ret (default "" tokenAdress).

Definition verifyConnection {E} : M E unit :=
  try_catch
    (sendRequest "/health" "GET" None;;;
     emit "connectionVerified";;;
     setStatus ClientStatus.ConnectionVerified)
    (fun _ => disconnect).

(** Modelled from the spec: [SwapClient.verifyConnectionWithTimeout] of the
    base class, the connectivity check that turns a failure into the
    status [Disconnected] instead of throwing upward. *)
Definition verifyConnectionWithTimeout {E} : M E unit := verifyConnection.

Definition initSpecific : M Thrown unit :=
  s <- gets seed;;
  if negb (Js.truthy s) then
    throw (JsError "Cannot initialize ConnextClient without seed")
  else
    raw initConnextClient;;;
    setStatus ClientStatus.Initialized;;;
    emit "initialized";;;
    verifyConnectionWithTimeout.

Definition executeHashLockTransfer (payload : TokenPaymentRequest)
    : M Rejection string :=
  res <- sendRequest "/hashlock-transfer" "POST" (Some (TransferPayload payload));;
  b <- parseResponseBody res;;
  preImage <- destructure b "preImage";;
  let secret := preImage in
  if Js.toBoolean secret then
    match secret with
    | Js.Str s =>
        if Js.startsWith s "0x" then ret (Js.slice s 2)
        else throw (ConnextError INVALID_TOKEN_PAYMENT_RESPONSE)
    | _ => throw (TypeError StartsWithOfNonString)
    end
  else throw (ConnextError INVALID_TOKEN_PAYMENT_RESPONSE).

Definition executeHashLockResolve (preImage : string) : M Rejection string :=
  sendRequest "/hashlock-resolve" "POST" (Some (ResolvePayload preImage));;;
  if Js.truthy (Some preImage) && Js.startsWith preImage "0x" then
    ret (Js.slice preImage 2)
  else throw (ConnextError INVALID_TOKEN_PAYMENT_RESPONSE).

Definition sendSmallestAmount (rHash _destination currency : string)
    : M Rejection string :=
  tokenAddress <- getTokenAddress currency;;
  executeHashLockTransfer
    {| amount := "1"; assetId := Some tokenAddress; lockHash := rHash;
       timelock := Some finalLock |}.

(** [case K:] of the [switch (err.code)] *)
Definition isCode (code : Js.value) (k : string) : bool :=
  Js.strictEquals code k.

(** The [catch] clause of [sendPayment].  A caught [undefined] or [null]
    has no [code] to switch on: the clause throws a [TypeError] itself. *)
Definition classify {A} (err : Rejection) : M Thrown A :=
  match errCode err, errMessage err with
  | Some code, Some message =>
      if isCode code "ECONNRESET"
         || isCode code (errorCodes UNEXPECTED)
         || isCode code (errorCodes TIMEOUT)
         || isCode code (errorCodes SERVER_ERROR)
         || isCode code (errorCodes INVALID_TOKEN_PAYMENT_RESPONSE)
      then throw (SwapError UNKNOWN_PAYMENT_ERROR message)
      else throw (SwapError FINAL_PAYMENT_ERROR message)
  | _, _ => throw (Raw (TypeError PropertyOfUndefined))
  end.

(** The [try] block of [sendPayment]: this node's leg of the deal. *)
Definition sendPaymentLeg (deal : SwapDeal) : M Rejection string :=
  if bool_decide (role deal = SwapRole.Maker) && Js.truthy (rPreimage deal) then
    (* we are the maker paying the taker *)
    let amount := takerUnits deal in
    tokenAddress <- gets (fun c => tokenAddresses c !! takerCurrency deal);;
    executeHashLockResolve (default "" (rPreimage deal))
  else
    (* we are the taker paying the maker *)
    let amount := makerUnits deal in
    tokenAddress <- gets (fun c => tokenAddresses c !! makerCurrency deal);;
    let lockTimeout := makerCltvDelta deal in
    executeHashLockTransfer
      {| amount := Js.numberToString amount; assetId := tokenAddress;
         lockHash := rHash deal; timelock := lockTimeout |}.

Definition sendPayment (deal : SwapDeal) : M Thrown string :=
  assert (bool_decide (state deal = SwapState.Active));;;
  assert (Js.truthy (destination deal));;;
  try_catch (sendPaymentLeg deal) classify.

Definition getHashLockStatus (lockHash : string) : M Rejection Js.value :=
  res <- sendRequest ("/hashlock-status/" +:+ lockHash) "GET" None;;
  b <- parseResponseBody res;;
  status <- destructure b "status";;
  ret status.

(** [lookupPayment] resolves with [{ state }]; the embedding returns the
    state. *)
Definition lookupPayment (rHash : string) : M Thrown PaymentState.t :=
  try_catch
    (status <- getHashLockStatus rHash;;
     if Js.strictEquals status "PENDING" then ret PaymentState.Pending
     else if Js.strictEquals status "COMPLETED" then ret PaymentState.Succeeded
     else if Js.strictEquals status "EXPIRED" || Js.strictEquals status "FAILED"
     then ret PaymentState.Failed
     else ret PaymentState.Failed)
    (fun _ => throw (Raw (ConnextError PAYMENT_NOT_FOUND))).

Definition channelBalance (currency : option string) : M Thrown ChannelBalance :=
  if negb (Js.truthy currency) then
    ret {| balance := 0; pendingOpenBalance := 0; inactiveBalance := 0 |}
  else
    let currency := default "" currency in
    tokenAddress <- raw (getTokenAddress currency);;
    res <- raw (sendRequest ("/balance/" +:+ tokenAddress) "GET" None);;
    b <- raw (parseResponseBody res);;
    freeBalance <- raw (destructure b "freeBalance");;
    pendingOpenBalance <- lift (unitsToAmount currency freeBalance);;
    let inactiveBalance := 0 in
    let balance := pendingOpenBalance + inactiveBalance in
    ret {| balance := balance; pendingOpenBalance := pendingOpenBalance;
           inactiveBalance := inactiveBalance |}.

Definition openChannel : M Rejection unit :=
  initConnextClient;;; ret tt.

Definition depositToChannel (assetId : string) (amount : Z) : M Rejection unit :=
  sendRequest "/hashlock-transfer" "POST" (Some (DepositPayload amount assetId));;;
  ret tt.

End ConnextClient.

(** [MissingCredentials] of the specification's error taxonomy is, in the
    adapter, the [Error] that [initSpecific] throws when it has no seed. *)
Definition MissingCredentials : Thrown :=
  JsError "Cannot initialize ConnextClient without seed".

(** The requests behind the two hash-lock operations. *)
Definition transferRequest (p : TokenPaymentRequest) : Request :=
  {| endpoint := "/hashlock-transfer"; method := "POST";
     payload := Some (TransferPayload p) |}.

Definition resolveRequest (preImage : string) : Request :=
  {| endpoint := "/hashlock-resolve"; method := "POST";
     payload := Some (ResolvePayload preImage) |}.

(** A request carries a value when a property of its payload holds it. *)
Definition carries (r : Request) (v : JsonField) : Prop :=
  exists p k, payload r = Some p /\ In (k, v) (payloadFields p).

(** A response with one of the three status codes [sendRequest] resolves on. *)
Definition success (res : IncomingMessage) : Prop :=
  statusCode res = 200 \/ statusCode res = 201 \/ statusCode res = 204.

(** A body that comes to nothing, neither a value nor an error. *)
Definition unparsed (res : IncomingMessage) : Prop :=
  body res = NotJson \/ body res = Stalled.

(** A 409 that [sendRequest] finds no message to reject with: the body is
    not JSON, the stream fails or stalls, or the body is [null]. *)
Definition mute (res : IncomingMessage) : Prop :=
  statusCode res = 409 /\
  forall v, body res = Json v -> Js.get v "message" = None.

(** A request that [sendRequest] never settles: the node does not answer,
    or answers with a 409 that yields no message. *)
Definition silenced (backend : list Request -> Request -> HttpOutcome)
    (c : Client) (req : Request) : Prop :=
  backend (requests c) req = NoAnswer \/
  exists res, backend (requests c) req = Responded res /\ mute res.

(** A caught value without properties: [undefined] or [null]. *)
Definition propertyless (err : Rejection) : Prop :=
  err = RejectedValue Js.Undefined \/ err = RejectedValue Js.Null.

(** The codes that the [catch] clause of [sendPayment] files under
    [UNKNOWN_PAYMENT_ERROR]. *)
Definition unknownPaymentCode (errorCodes : ConnextErrorKind -> string)
    (code : Js.value) : Prop :=
  code = Js.Str "ECONNRESET" \/
  code = Js.Str (errorCodes UNEXPECTED) \/
  code = Js.Str (errorCodes TIMEOUT) \/
  code = Js.Str (errorCodes SERVER_ERROR) \/
  code = Js.Str (errorCodes INVALID_TOKEN_PAYMENT_RESPONSE).

(** ** A Connext node, an error table and deals to run the adapter on *)

Module Sample.

Definition codes (k : ConnextErrorKind) : string :=
  match k with
  | CONNEXT_IS_DISABLED => "8.1"
  | INSUFFICIENT_BALANCE => "8.2"
  | TIMEOUT => "8.3"
  | SERVER_ERROR => "8.4"
  | UNEXPECTED => "8.5"
  | TOKEN_ADDRESS_NOT_FOUND => "8.6"
  | INVALID_TOKEN_PAYMENT_RESPONSE => "8.7"
  | PAYMENT_NOT_FOUND => "8.8"
  end.

Definition messages (k : ConnextErrorKind) : string :=
  match k with
  | CONNEXT_IS_DISABLED => "connext is disabled"
  | INSUFFICIENT_BALANCE => "insufficient balance"
  | TIMEOUT => "request timeout"
  | SERVER_ERROR => "connext server error"
  | UNEXPECTED => "unexpected error"
  | TOKEN_ADDRESS_NOT_FOUND => "token address not found"
  | INVALID_TOKEN_PAYMENT_RESPONSE => "invalid token payment response"
  | PAYMENT_NOT_FOUND => "payment not found"
  end.

Definition engine (site : TypeErrorSite) : string :=
  match site with
  | DestructureOfNull => "Cannot destructure a property of null"
  | StartsWithOfNonString => "startsWith is not a function"
  | PropertyOfUndefined => "Cannot read properties of undefined"
  end.

(** A converter that counts one unit per character of the balance. *)
Definition units (_ : string) (free : Js.value) : Result Thrown Z :=
  match free with
  | Js.Str s => Resolved (Z.of_nat (String.length s))
  | _ => Resolved 0
  end.

(** A response with a JSON body that answers every query of the adapter. *)
Definition reply (code : Z) (pre : option string) (st : string) : IncomingMessage :=
  {| statusCode := code; statusMessage := "";
     body :=
       Json (Js.Obj
               ([("message", Js.Str "transfer already exists")] ++
                match pre with Some s => [("preImage", Js.Str s)] | None => [] end ++
                [("status", Js.Str st); ("freeBalance", Js.Str "0")])) |}.

(** A response without body, as a 204 is. *)
Definition empty (code : Z) : IncomingMessage :=
  {| statusCode := code; statusMessage := ""; body := NotJson |}.

(** A node that answers every request alike. *)
Definition always (o : HttpOutcome) : list Request -> Request -> HttpOutcome :=
  fun _ _ => o.

(** A node that accepts every transfer and reports it pending. *)
Definition accepting : list Request -> Request -> HttpOutcome :=
  always (Responded (reply 200 (Some "0xdead") "PENDING")).

(** A node that is short of balance. *)
Definition short : list Request -> Request -> HttpOutcome :=
  always (Responded (reply 402 None "")).

Definition currencies : list CurrencyInstance :=
  [ {| id := "ETH"; tokenAddress := Some "0xe7e"; swapClient := SwapClientType.Connext |};
    {| id := "DAI"; tokenAddress := Some "0xda1"; swapClient := SwapClientType.Connext |};
    {| id := "BTC"; tokenAddress := None; swapClient := SwapClientType.Lnd |} ].

Definition client : Client := newClient currencies.



(** The taker pays the maker currency (DAI) and receives ETH. *)
Definition takerDeal : SwapDeal :=
  {| role := SwapRole.Taker; state := SwapState.Active; rHash := "c0ffee"; rPreimage := None;
     destination := Some "0xpeer"; makerCurrency := "DAI"; takerCurrency := "ETH";
     makerUnits := 1000; takerUnits := 250; makerCltvDelta := Some 576 |}.

(** The maker of the same trade, once it knows the preimage. *)
Definition makerDeal : SwapDeal :=
  {| role := SwapRole.Maker; state := SwapState.Active; rHash := "c0ffee"; rPreimage := Some "0xabc";
     destination := Some "0xpeer"; makerCurrency := "DAI"; takerCurrency := "ETH";
     makerUnits := 1000; takerUnits := 250; makerCltvDelta := Some 576 |}.

Definition createdDeal : SwapDeal :=
  {| role := SwapRole.Taker; state := SwapState.Created; rHash := "c0ffee"; rPreimage := None;
     destination := Some "0xpeer"; makerCurrency := "DAI"; takerCurrency := "ETH";
     makerUnits := 1000; takerUnits := 250; makerCltvDelta := Some 576 |}.

(** The maker's deal before it is active. *)
Definition idleMakerDeal : SwapDeal :=
  {| role := SwapRole.Maker; state := SwapState.Created; rHash := "c0ffee"; rPreimage := Some "0xabc";
     destination := Some "0xpeer"; makerCurrency := "DAI"; takerCurrency := "ETH";
     makerUnits := 1000; takerUnits := 250; makerCltvDelta := Some 576 |}.

(** A node that answers 204, which has no body. *)
Definition silent : list Request -> Request -> HttpOutcome :=
  always (Responded (empty 204)).

(** A node that answers 409 with a JSON body, and the one whose body is
    [{}]. *)
Definition conflict (v : Js.value) : list Request -> Request -> HttpOutcome :=
  always
    (Responded {| statusCode := 409; statusMessage := "Conflict"; body := Json v |}).

Definition conflicting : list Request -> Request -> HttpOutcome :=
  conflict (Js.Obj []).

End Sample.

(** ** The adapter's report on itself *)

(** [ConnextChannelCount] and [ConnextInfo] of [./types]. *)
Record ConnextChannelCount := {
  active : Z;
  settled : Z;
  closed : Z;
}.

Module ConnextInfo.
Record t := {
  chain : string;
  status : Js.value;
  channels : option ConnextChannelCount;
  address : option string;
  version : option string;
}.
End ConnextInfo.

(** [ConnextVersion] of [./types]; [getVersion] resolves with the empty
    object, whose [version] is [undefined]. *)
Record ConnextVersion := { versionOf : option string }.

(** [Object.keys(m)] of a [Map]: a [Map] keeps its entries in an internal
    slot and has no own enumerable property. *)
Definition objectKeysOfMap (m : gmap string string) : list string := [].

Section ConnextInfo.

Variable backend : list Request -> Request -> HttpOutcome.
Variable errorMessages : ConnextErrorKind -> string.
Variable engineMessages : TypeErrorSite -> string.

(** [this.isDisabled()] of the base class, and the field [this.address],
    which the adapter declares and never assigns. *)
Variable isDisabled : bool.
Variable thisAddress : option string.

(** [errors.CONNEXT_HAS_NO_ACTIVE_CHANNELS().message] *)
Variable noActiveChannels : string.

Definition getVersion {E} : M E ConnextVersion := ret {| versionOf := None |}.

Definition getChannel : M Rejection Js.value :=
  res <- sendRequest backend "/config" "GET" None;;
  parseResponseBody res.

Definition getChannels : M Rejection (list Js.value) :=
  channel <- getChannel;;
  ret [channel].

(** [getVersion] is the first statement of the [try] block and cannot
    reject, so the block is entered after it here.  The [catch] clause reads
    [err.message], which throws on a caught [undefined] or [null]. *)
Definition getConnextInfo : M Thrown ConnextInfo.t :=
  m <- gets tokenAddresses;;
  let chain :=
    match find (fun key => bool_decide (m !! key = thisAddress)) (objectKeysOfMap m) with
    | Some key => if Js.truthy (Some key) then key else "connext"
    | None => "connext"
    end in
  if isDisabled then
    ret {| ConnextInfo.chain := chain;
           ConnextInfo.status := Js.Str (errorMessages CONNEXT_IS_DISABLED);
           ConnextInfo.channels := None; ConnextInfo.address := None;
           ConnextInfo.version := None |}
  else
    v <- getVersion;;
    let version := versionOf v in
    try_catch
      (connextChannels <- getChannels;;
       let channels := {| active := Z.of_nat (length connextChannels);
                          settled := 0; closed := 0 |} in
       let address := thisAddress in
       let status :=
         if (active channels <=? 0)%Z then noActiveChannels else "Ready" in
       ret {| ConnextInfo.chain := chain; ConnextInfo.status := Js.Str status;
              ConnextInfo.channels := Some channels;
              ConnextInfo.address := address;
              ConnextInfo.version := version |})
      (fun err =>
         match errMessage errorMessages engineMessages err with
         | Some message =>
             ret {| ConnextInfo.chain := chain; ConnextInfo.status := message;
                    ConnextInfo.channels := None; ConnextInfo.address := None;
                    ConnextInfo.version := version |}
         | None => throw (Raw (TypeError PropertyOfUndefined))
         end).

End ConnextInfo.

(** What an operation leaves alone: the seed, the token addresses and the
    events emitted. *)
Definition sameConfiguration (c c' : Client) : Prop :=
  seed c' = seed c /\ tokenAddresses c' = tokenAddresses c /\ emitted c' = emitted c.

(** A currency instance that the constructor files under its id. *)
Definition registers (currency : CurrencyInstance) (k t : string) : Prop :=
  id currency = k /\ tokenAddress currency = Some t /\ t <> "" /\
  swapClient currency = SwapClientType.Connext.

(** The request that [sendPayment] issues for this node's leg of a deal. *)
Definition legRequest (deal : SwapDeal) (c : Client) : Request :=
  if bool_decide (role deal = SwapRole.Maker) && Js.truthy (rPreimage deal) then
    resolveRequest (default "" (rPreimage deal))
  else
    transferRequest
      {| amount := Js.numberToString (makerUnits deal);
         assetId := tokenAddresses c !! makerCurrency deal;
         lockHash := rHash deal; timelock := makerCltvDelta deal |}.

(** The string under [preImage] in the body of a response, if the body is
    JSON and has one. *)
Definition preImage (res : IncomingMessage) : option string :=
  match body res with
  | Json v =>
      match Js.get v "preImage" with
      | Some (Js.Str s) => Some s
      | _ => None
      end
  | _ => None
  end.

(** The preimage that settles this node's leg: the one the maker holds, or
    the one in the node's response to the transfer. *)
Definition legPreimage (deal : SwapDeal) (res : IncomingMessage) : option string :=
  if bool_decide (role deal = SwapRole.Maker) && Js.truthy (rPreimage deal) then
    rPreimage deal
  else preImage res.

(** ** More to run the adapter on *)

Module MoreSamples.

(** A node that refuses the connection. *)
Definition refusing : list Request -> Request -> HttpOutcome :=
  Sample.always (RequestError (Some "ECONNREFUSED") "connect ECONNREFUSED").

(** A maker whose preimage lacks the prefix. *)
Definition unprefixedDeal : SwapDeal :=
  {| role := SwapRole.Maker; state := SwapState.Active; rHash := "c0ffee";
     rPreimage := Some "abc"; destination := Some "0xpeer";
     makerCurrency := "DAI"; takerCurrency := "ETH";
     makerUnits := 1000; takerUnits := 250; makerCltvDelta := Some 576 |}.

Definition dai : CurrencyInstance :=
  {| id := "DAI"; tokenAddress := Some "0xda1"; swapClient := SwapClientType.Connext |}.

Definition health : Request :=
  {| endpoint := "/health"; method := "GET"; payload := None |}.

Definition connect : Request :=
  {| endpoint := "/connect"; method := "POST"; payload := None |}.

Definition config : Request :=
  {| endpoint := "/config"; method := "GET"; payload := None |}.

Definition seeded : Client := set_seed (Some "seed") Sample.client.

(** A deal of 10^21 maker units. *)
Definition largeDeal : SwapDeal :=
  {| role := SwapRole.Taker; state := SwapState.Active; rHash := "c0ffee";
     rPreimage := None; destination := Some "0xpeer";
     makerCurrency := "DAI"; takerCurrency := "ETH";
     makerUnits := 10 ^ 21; takerUnits := 250; makerCltvDelta := Some 576 |}.

End MoreSamples.

(** * The order packet *)

(** ** JSON, as [JSON.stringify] and [JSON.parse] of ECMA-262 handle it *)

Module JSON.

Local Open Scope list_scope.
Local Open Scope N_scope.

(** A JavaScript string is a sequence of UTF-16 code units. *)
Definition units (s : string) : list N :=
  map N_of_ascii (list_ascii_of_string s).

(** A JavaScript number: the values that are not finite, negative zero, and
    the finite numbers other than negative zero, of a type [F] that the
    development leaves open. *)
Inductive number (F : Type) :=
| NaN
| PosInfinity
| NegInfinity
| NegZero
| Finite (x : F).
Arguments NaN {F}.
Arguments PosInfinity {F}.
Arguments NegInfinity {F}.
Arguments NegZero {F}.
Arguments Finite {F} x.

(** How the finite numbers are written and read: [zero] is +0,
    [NumberToString] is Number::toString in radix 10, and [StringToNumber]
    reads a JSON number token ([None] when the token is not one). *)
Class NumberSyntax (F : Type) := {
  zero : F;
  NumberToString : F -> list N;
  StringToNumber : list N -> option (number F);
}.

(** What ECMA-262 grants about the two: a printed number is a non-empty run
    of the characters of a number token, and reads back as itself. *)
Definition isNumberChar (c : N) : bool :=
  ((48 <=? c) && (c <=? 57)) || (c =? 45) || (c =? 43) || (c =? 46)
  || (c =? 101) || (c =? 69).

Record NumberRoundTrip (F : Type) `{NumberSyntax F} : Prop := {
  printed_token : forall x : F,
    NumberToString x <> [] /\ forallb isNumberChar (NumberToString x) = true;
  read_printed : forall x : F, StringToNumber (NumberToString x) = Some (Finite x);
}.

(** A JSON value.  An object lists its properties in enumeration order. *)
#[warnings="-register-all"] Inductive value (F : Type) :=
| Null
| Bool (b : bool)
| Num (x : number F)
| Str (s : list N)
| Arr (elements : list (value F))
| Obj (properties : list (list N * value F)).
Arguments Null {F}.
Arguments Bool {F} b.
Arguments Num {F} x.
Arguments Str {F} s.
Arguments Arr {F} elements.
Arguments Obj {F} properties.

(** *** QuoteJSONString *)

Definition hexDigit (d : N) : N := if d <? 10 then 48 + d else 87 + d.

(** [\uXXXX], in lower-case hexadecimal *)
Definition unicodeEscape (c : N) : list N :=
  [92; 117; hexDigit (c / 4096 mod 16); hexDigit (c / 256 mod 16);
   hexDigit (c / 16 mod 16); hexDigit (c mod 16)].

Definition isLeadingSurrogate (c : N) : bool := (55296 <=? c) && (c <=? 56319).
Definition isTrailingSurrogate (c : N) : bool := (56320 <=? c) && (c <=? 57343).

(** A code unit that is not a surrogate. *)
Definition quoteUnit (c : N) : list N :=
  if c =? 8 then [92; 98]
  else if c =? 9 then [92; 116]
  else if c =? 10 then [92; 110]
  else if c =? 12 then [92; 102]
  else if c =? 13 then [92; 114]
  else if c =? 34 then [92; 34]
  else if c =? 92 then [92; 92]
  else if c <? 32 then unicodeEscape c
  else [c].

(** The code points of the string, one after the other: a surrogate pair
    stays as it is, a lone surrogate is escaped. *)
Fixpoint quoteUnits (s : list N) : list N :=
  match s with
  | [] => []
  | c :: r =>
      if isLeadingSurrogate c then
        match r with
        | d :: r' =>
            if isTrailingSurrogate d then c :: d :: quoteUnits r'
            else unicodeEscape c ++ quoteUnits r
        | [] => unicodeEscape c
        end
      else if isTrailingSurrogate c then unicodeEscape c ++ quoteUnits r
      else quoteUnit c ++ quoteUnits r
  end.

Definition QuoteJSONString (s : list N) : list N := 34 :: quoteUnits s ++ [34].

(** *** [JSON.stringify] *)

(** The texts of the items, with a comma between any two. *)
Definition separated {A} (text : A -> list N) : list A -> list N :=
  fix go (l : list A) : list N :=
    match l with
    | [] => []
    | [x] => text x
    | x :: l' => text x ++ 44 :: go l'
    end.

Section Stringify.

Context {F : Type} `{NumberSyntax F}.

(** A number that is not finite is written [null]; negative zero is written
    as zero. *)
Definition stringifyNumber (x : number F) : list N :=
  match x with
  | Finite x => NumberToString x
  | NegZero => NumberToString zero
  | NaN | PosInfinity | NegInfinity => units "null"
  end.

Fixpoint stringify (v : value F) : list N :=
  match v with
  | Null => units "null"
  | Bool true => units "true"
  | Bool false => units "false"
  | Num x => stringifyNumber x
  | Str s => QuoteJSONString s
  | Arr elements => 91 :: separated stringify elements ++ [93]
  | Obj properties =>
      123 :: separated (fun '(k, v) => QuoteJSONString k ++ 58 :: stringify v)
               properties ++ [125]
  end.

End Stringify.

(** *** [JSON.parse] *)

Definition isWhiteSpace (c : N) : bool :=
  (c =? 32) || (c =? 9) || (c =? 10) || (c =? 13).

Fixpoint skipWhiteSpace (s : list N) : list N :=
  match s with
  | c :: r => if isWhiteSpace c then skipWhiteSpace r else s
  | [] => []
  end.

Definition hexValue (h : N) : option N :=
  if (48 <=? h) && (h <=? 57) then Some (h - 48)
  else if (97 <=? h) && (h <=? 102) then Some (h - 87)
  else if (65 <=? h) && (h <=? 70) then Some (h - 55)
  else None.

Definition hex4 (a b c d : N) : option N :=
  match hexValue a, hexValue b, hexValue c, hexValue d with
  | Some a, Some b, Some c, Some d => Some (4096 * a + 256 * b + 16 * c + d)
  | _, _, _, _ => None
  end.

(** The character after a backslash, other than [u]. *)
Definition unescape (e : N) : option N :=
  if e =? 34 then Some 34
  else if e =? 92 then Some 92
  else if e =? 47 then Some 47
  else if e =? 98 then Some 8
  else if e =? 102 then Some 12
  else if e =? 110 then Some 10
  else if e =? 114 then Some 13
  else if e =? 116 then Some 9
  else None.

(** The characters of a string literal after its opening quote. [acc] holds
    the code units read so far, last first. *)
Fixpoint parseChars (s : list N) (acc : list N) : option (list N * list N) :=
  match s with
  | [] => None
  | c :: r =>
      if c =? 34 then Some (rev acc, r)
      else if c =? 92 then
        match r with
        | e :: r' =>
            if e =? 117 then
              match r' with
              | h1 :: h2 :: h3 :: h4 :: r'' =>
                  match hex4 h1 h2 h3 h4 with
                  | Some u => parseChars r'' (u :: acc)
                  | None => None
                  end
              | _ => None
              end
            else
              match unescape e with
              | Some u => parseChars r' (u :: acc)
              | None => None
              end
        | [] => None
        end
      else if c <? 32 then None
      else parseChars r (c :: acc)
  end.

(** The longest run of number characters. *)
Fixpoint numberToken (s : list N) : list N * list N :=
  match s with
  | c :: r =>
      if isNumberChar c then
        let (tok, rest) := numberToken r in (c :: tok, rest)
      else ([], s)
  | [] => ([], [])
  end.

(** [word] at the head of the text *)
Fixpoint literal (word s : list N) : option (list N) :=
  match word, s with
  | [], _ => Some s
  | w :: word', c :: r => if w =? c then literal word' r else None
  | _ :: _, [] => None
  end.

(** An array index: the canonical decimal string of an integer below
    2^32 - 1.  Such property keys are enumerated first, in ascending
    order. *)
Definition arrayIndex (k : list N) : option N :=
  match k with
  | [] => None
  | d :: k' =>
      if forallb (fun c => (48 <=? c) && (c <=? 57)) k
         && ((d =? 48) && (length k' =? 0)%nat || negb (d =? 48))
         && (length k <=? 10)%nat
      then
        let n := fold_left (fun acc c => 10 * acc + (c - 48)) k 0 in
        if n <? 4294967295 then Some n else None
      else None
  end.

Section Parse.

Context {F : Type} `{NumberSyntax F}.

Definition eqUnits (a b : list N) : bool :=
  bool_decide (a = b).

(** CreateDataProperty on the object under construction: an existing key
    keeps its place and gets the new value; a new array index goes among the
    array indices, in ascending order; any other new key goes last. *)
Fixpoint replaceProperty (k : list N) (v : value F)
    (o : list (list N * value F)) : option (list (list N * value F)) :=
  match o with
  | [] => None
  | (k', v') :: o' =>
      if eqUnits k k' then Some ((k, v) :: o')
      else
        match replaceProperty k v o' with
        | Some o'' => Some ((k', v') :: o'')
        | None => None
        end
  end.

Fixpoint insertIndex (i : N) (k : list N) (v : value F)
    (o : list (list N * value F)) : list (list N * value F) :=
  match o with
  | [] => [(k, v)]
  | (k', v') :: o' =>
      match arrayIndex k' with
      | Some j => if j <? i then (k', v') :: insertIndex i k v o'
                  else (k, v) :: o
      | None => (k, v) :: o
      end
  end.

Definition defineProperty (k : list N) (v : value F)
    (o : list (list N * value F)) : list (list N * value F) :=
  match replaceProperty k v o with
  | Some o' => o'
  | None =>
      match arrayIndex k with
      | Some i => insertIndex i k v o
      | None => o ++ [(k, v)]
      end
  end.

(** The value at the head of the text, and what follows it.  [fuel] bounds
    the number of values, members and elements entered. *)
Fixpoint parseValue (fuel : nat) (s : list N) {struct fuel}
    : option (value F * list N) :=
  match fuel with
  | O => None
  | S fuel =>
      match skipWhiteSpace s with
      | [] => None
      | c :: r =>
          if c =? 123 then
            match skipWhiteSpace r with
            | c' :: r' =>
                if c' =? 125 then Some (Obj [], r')
                else parseMembers fuel [] r
            | [] => None
            end
          else if c =? 91 then
            match skipWhiteSpace r with
            | c' :: r' =>
                if c' =? 93 then Some (Arr [], r')
                else parseElements fuel [] r
            | [] => None
            end
          else if c =? 34 then
            match parseChars r [] with
            | Some (str, r') => Some (Str str, r')
            | None => None
            end
          else if c =? 116 then
            option_map (fun r' => (Bool true, r')) (literal (units "rue") r)
          else if c =? 102 then
            option_map (fun r' => (Bool false, r')) (literal (units "alse") r)
          else if c =? 110 then
            option_map (fun r' => (Null, r')) (literal (units "ull") r)
          else
            match numberToken (c :: r) with
            | ([], _) => None
            | (tok, r') =>
                match StringToNumber tok with
                | Some x => Some (Num x, r')
                | None => None
                end
            end
      end
  end
with parseMembers (fuel : nat) (o : list (list N * value F)) (s : list N)
    {struct fuel} : option (value F * list N) :=
  match fuel with
  | O => None
  | S fuel =>
      match skipWhiteSpace s with
      | q :: r =>
          if q =? 34 then
            match parseChars r [] with
            | Some (k, r1) =>
                match skipWhiteSpace r1 with
                | colon :: r2 =>
                    if colon =? 58 then
                      match parseValue fuel r2 with
                      | Some (v, r3) =>
                          let o' := defineProperty k v o in
                          match skipWhiteSpace r3 with
                          | d :: r4 =>
                              if d =? 44 then parseMembers fuel o' r4
                              else if d =? 125 then Some (Obj o', r4)
                              else None
                          | [] => None
                          end
                      | None => None
                      end
                    else None
                | [] => None
                end
            | None => None
            end
          else None
      | [] => None
      end
  end
with parseElements (fuel : nat) (a : list (value F)) (s : list N)
    {struct fuel} : option (value F * list N) :=
  match fuel with
  | O => None
  | S fuel =>
      match parseValue fuel s with
      | Some (v, r) =>
          match skipWhiteSpace r with
          | d :: r' =>
              if d =? 44 then parseElements fuel (a ++ [v]) r'
              else if d =? 93 then Some (Arr (a ++ [v]), r')
              else None
          | [] => None
          end
      | None => None
      end
  end.

(** [JSON.parse(text)], [None] standing for the SyntaxError.  Every value,
    member and element entered takes a character of the text, so the length
    of the text is fuel enough. *)
Definition parse (text : list N) : option (value F) :=
  match parseValue (S (length text)) text with
  | Some (v, r) =>
      match skipWhiteSpace r with
      | [] => Some v
      | _ :: _ => None
      end
  | None => None
  end.

(** Reading the property [k] of an object. *)
Fixpoint getProperty (k : list N) (o : list (list N * value F))
    : option (value F) :=
  match o with
  | [] => None
  | (k', v) :: o' => if eqUnits k k' then Some v else getProperty k o'
  end.

(** What a finite number is read back as once it has been written: itself,
    or zero for negative zero. *)
Definition readBack (x : number F) : number F :=
  match x with
  | NegZero => Finite zero
  | _ => x
  end.

(** [x === y] on numbers *)
Definition strictEqualsNumber (x y : number F) : Prop :=
  match x, y with
  | Finite a, Finite b => a = b
  | NegZero, NegZero => True
  | NegZero, Finite b => zero = b
  | Finite a, NegZero => a = zero
  | PosInfinity, PosInfinity => True
  | NegInfinity, NegInfinity => True
  | _, _ => False
  end.

(** [x === y] on the primitive values of JSON *)
Definition strictEquals (x y : value F) : Prop :=
  match x, y with
  | Null, Null => True
  | Bool a, Bool b => a = b
  | Num a, Num b => strictEqualsNumber a b
  | Str a, Str b => a = b
  | _, _ => False
  end.

End Parse.

End JSON.

(** ** [OrderPacket] *)

Module OrderPacket.

Local Open Scope list_scope.

Section OrderPacket.

Context {F : Type} `{JSON.NumberSyntax F}.

(** [type OrderPacketBody] *)
Record OrderPacketBody := {
  id : list N;
  pairId : list N;
  quantity : JSON.number F;
  price : JSON.number F;
  invoice : list N;
}.

(** The packet holds the body it was constructed with.  [fromRaw] hands the
    constructor whatever [JSON.parse] returned, so the body of a packet is a
    JSON value. *)
Record OrderPacket := { body : JSON.value F }.

(** An object of type [OrderPacketBody], its properties in the order of the
    type and of the literal [{ id, pairId, quantity, price, invoice }]. *)
Definition bodyObject (b : OrderPacketBody) : JSON.value F :=
  JSON.Obj
    [ (JSON.units "id", JSON.Str (id b));
      (JSON.units "pairId", JSON.Str (pairId b));
      (JSON.units "quantity", JSON.Num (quantity b));
      (JSON.units "price", JSON.Num (price b));
      (JSON.units "invoice", JSON.Str (invoice b)) ].

(** [new OrderPacket(body)] *)
Definition new (b : OrderPacketBody) : OrderPacket := {| body := bodyObject b |}.

(** [fromOutgoingOrder(order)] reads the five properties of the order. *)
Definition fromOutgoingOrder (order : OrderPacketBody) : OrderPacket :=
  new {| id := id order; pairId := pairId order; quantity := quantity order;
         price := price order; invoice := invoice order |}.

Definition fromRaw (raw : list N) : option OrderPacket :=
  match JSON.parse raw with
  | Some bodyObject => Some {| body := bodyObject |}
  | None => None
  end.

Definition toRaw (p : OrderPacket) : list N := JSON.stringify (body p).

(** [packet.body.k], [None] for [undefined]. *)
Definition field (p : OrderPacket) (k : string) : option (JSON.value F) :=
  match body p with
  | JSON.Obj o => JSON.getProperty (JSON.units k) o
  | _ => None
  end.

(** The body that [JSON.parse] builds from the text of a packet made of
    [b]: the numbers are those read back. *)
Definition parsedBody (b : OrderPacketBody) : JSON.value F :=
  JSON.Obj
    [ (JSON.units "id", JSON.Str (id b));
      (JSON.units "pairId", JSON.Str (pairId b));
      (JSON.units "quantity", JSON.Num (JSON.readBack (quantity b)));
      (JSON.units "price", JSON.Num (JSON.readBack (price b)));
      (JSON.units "invoice", JSON.Str (invoice b)) ].

(** A finite number. *)
Definition finite (x : JSON.number F) : Prop :=
  match x with
  | JSON.Finite _ | JSON.NegZero => True
  | _ => False
  end.

(** The property [k] of the packet is strictly equal to [v]. *)
Definition fieldEquals (p : OrderPacket) (k : string) (v : JSON.value F) : Prop :=
  exists w, field p k = Some w /\ JSON.strictEquals w v.

End OrderPacket.

Arguments OrderPacketBody F : clear implicits.
Arguments OrderPacket F : clear implicits.

End OrderPacket.

(** ** The integers among the numbers *)

(** The integers, written in plain decimal notation, as JavaScript writes and
    reads the integral numbers of moderate size. *)
Module Integers.

Local Open Scope list_scope.
Local Open Scope N_scope.

Fixpoint uintUnits (d : Decimal.uint) : list N :=
  match d with
  | Decimal.Nil => []
  | Decimal.D0 d => 48 :: uintUnits d
  | Decimal.D1 d => 49 :: uintUnits d
  | Decimal.D2 d => 50 :: uintUnits d
  | Decimal.D3 d => 51 :: uintUnits d
  | Decimal.D4 d => 52 :: uintUnits d
  | Decimal.D5 d => 53 :: uintUnits d
  | Decimal.D6 d => 54 :: uintUnits d
  | Decimal.D7 d => 55 :: uintUnits d
  | Decimal.D8 d => 56 :: uintUnits d
  | Decimal.D9 d => 57 :: uintUnits d
  end.

Definition intUnits (d : Decimal.int) : list N :=
  match d with
  | Decimal.Pos d => uintUnits d
  | Decimal.Neg d => 45 :: uintUnits d
  end.

Fixpoint unitsUint (s : list N) : option Decimal.uint :=
  match s with
  | [] => Some Decimal.Nil
  | c :: r =>
      match unitsUint r with
      | Some d =>
          if c =? 48 then Some (Decimal.D0 d)
          else if c =? 49 then Some (Decimal.D1 d)
          else if c =? 50 then Some (Decimal.D2 d)
          else if c =? 51 then Some (Decimal.D3 d)
          else if c =? 52 then Some (Decimal.D4 d)
          else if c =? 53 then Some (Decimal.D5 d)
          else if c =? 54 then Some (Decimal.D6 d)
          else if c =? 55 then Some (Decimal.D7 d)
          else if c =? 56 then Some (Decimal.D8 d)
          else if c =? 57 then Some (Decimal.D9 d)
          else None
      | None => None
      end
  end.

Definition unitsInt (s : list N) : option Decimal.int :=
  match s with
  | c :: r =>
      if c =? 45 then option_map Decimal.Neg (unitsUint r)
      else option_map Decimal.Pos (unitsUint s)
  | [] => None
  end.

Definition toString (z : Z) : list N := intUnits (Z.to_int z).

(** A token is read as the integer it is the decimal notation of; [-0] is
    negative zero. *)
Definition ofString (tok : list N) : option (JSON.number Z) :=
  match unitsInt tok with
  | Some d =>
      if bool_decide (toString (Z.of_int d) = tok) then Some (JSON.Finite (Z.of_int d))
      else if bool_decide (tok = [45; 48]) then Some JSON.NegZero
      else None
  | None => None
  end.

#[global] Instance syntax : JSON.NumberSyntax Z :=
  {| JSON.zero := 0%Z; JSON.NumberToString := toString;
     JSON.StringToNumber := ofString |}.

(** An order of 5 at the price 3, and the same order with a quantity that is
    not a number. *)
Definition order : OrderPacket.OrderPacketBody Z :=
  {| OrderPacket.id := JSON.units "1c3f";
     OrderPacket.pairId := JSON.units "LTC/BTC";
     OrderPacket.quantity := JSON.Finite 5%Z;
     OrderPacket.price := JSON.Finite 3%Z;
     OrderPacket.invoice := JSON.units "lnbc1" |}.

Definition orderOfNaN : OrderPacket.OrderPacketBody Z :=
  {| OrderPacket.id := JSON.units "1c3f";
     OrderPacket.pairId := JSON.units "LTC/BTC";
     OrderPacket.quantity := JSON.NaN;
     OrderPacket.price := JSON.Finite 3%Z;
     OrderPacket.invoice := JSON.units "lnbc1" |}.

End Integers.

(** ** What is read back from a packet *)

Module OrderPacketRead.

Local Open Scope list_scope.

Section OrderPacketRead.

Context {F : Type} `{JSON.NumberSyntax F}.

(** The value that [JSON.parse] reads where [JSON.stringify] has written
    the number [x]: a finite number is read back, any other number has been
    written as [null]. *)
Definition readNumber (x : JSON.number F) : JSON.value F :=
  match x with
  | JSON.Finite _ | JSON.NegZero => JSON.Num (JSON.readBack x)
  | JSON.NaN | JSON.PosInfinity | JSON.NegInfinity => JSON.Null
  end.

(** The body read from the text of a packet made of [b]. *)
Definition readBody (b : OrderPacket.OrderPacketBody F) : JSON.value F :=
  JSON.Obj
    [ (JSON.units "id", JSON.Str (OrderPacket.id b));
      (JSON.units "pairId", JSON.Str (OrderPacket.pairId b));
      (JSON.units "quantity", readNumber (OrderPacket.quantity b));
      (JSON.units "price", readNumber (OrderPacket.price b));
      (JSON.units "invoice", JSON.Str (OrderPacket.invoice b)) ].

(** A code unit that is not a control character. *)
Definition printable (u : N) : Prop := (32 <= u)%N.

End OrderPacketRead.

End OrderPacketRead.

(** An order whose id holds a line feed, a carriage return, NUL and a
    quotation mark. *)
Module MorePackets.

Definition orderWithBreaks : OrderPacket.OrderPacketBody Z :=
  {| OrderPacket.id := [10; 13; 0; 34]%N;
     OrderPacket.pairId := JSON.units "LTC/BTC";
     OrderPacket.quantity := JSON.Finite 5%Z;
     OrderPacket.price := JSON.NegZero;
     OrderPacket.invoice := JSON.units "lnbc1" |}.

(** The same order with the price zero. *)
Definition orderWithBreaks' : OrderPacket.OrderPacketBody Z :=
  {| OrderPacket.id := [10; 13; 0; 34]%N;
     OrderPacket.pairId := JSON.units "LTC/BTC";
     OrderPacket.quantity := JSON.Finite 5%Z;
     OrderPacket.price := JSON.Finite 0%Z;
     OrderPacket.invoice := JSON.units "lnbc1" |}.

End MorePackets.

(** * Properties of the Connext adapter *)

(** Case analysis on every [match] and [if] in sight. *)
Ltac cases := repeat (case_match; simplify_eq; try done).

Section ConnextClientFacts.

Variable backend : list Request -> Request -> HttpOutcome.
Variable errorCodes : ConnextErrorKind -> string.
Variable errorMessages : ConnextErrorKind -> string.
Variable engineMessages : TypeErrorSite -> string.
Variable unitsToAmount : string -> Js.value -> Result Thrown Z.

Local Abbreviation sendRequest := (sendRequest backend).
Local Abbreviation executeHashLockTransfer := (executeHashLockTransfer backend).
Local Abbreviation executeHashLockResolve := (executeHashLockResolve backend).
Local Abbreviation sendPaymentLeg := (sendPaymentLeg backend).
Local Abbreviation sendPayment :=
  (sendPayment backend errorCodes errorMessages engineMessages).
Local Abbreviation caught :=
  (classify errorCodes errorMessages engineMessages (A:=string)).
Local Abbreviation errCode := (errCode errorCodes).
Local Abbreviation errMessage := (errMessage errorMessages engineMessages).
Local Abbreviation lookupPayment := (lookupPayment backend).
Local Abbreviation getHashLockStatus := (getHashLockStatus backend).
Local Abbreviation initSpecific := (initSpecific backend).
Local Abbreviation channelBalance := (channelBalance backend unitsToAmount).

(** *** Requests *)

Lemma sendRequest_requests endpoint method payload c :
  requests (sendRequest endpoint method payload c).2 =
  (requests c ++ [{| endpoint := endpoint; method := method; payload := payload |}])%list.
Proof.
  unfold sendRequest.
  destruct (backend _ _) as [res|code msg|]; simpl; [done| |done].
  by case_bool_decide.
Qed.

Lemma sendRequest_responded endpoint method payload c res :
  backend (requests c)
    {| endpoint := endpoint; method := method; payload := payload |} = Responded res ->
  sendRequest endpoint method payload c =
  (settle res,
   push_request {| endpoint := endpoint; method := method; payload := payload |} c).
Proof. intros H. unfold sendRequest. by rewrite H. Qed.

Lemma sendRequest_failed endpoint method payload c code msg :
  backend (requests c)
    {| endpoint := endpoint; method := method; payload := payload |} =
    RequestError code msg ->
  sendRequest endpoint method payload c =
  (Rejected (NodeError code msg),
   let c' := push_request
               {| endpoint := endpoint; method := method; payload := payload |} c in
   if bool_decide (code = Some "ECONNREFUSED")
   then set_status ClientStatus.Disconnected c' else c').
Proof. intros H. unfold sendRequest. by rewrite H. Qed.

Lemma sendRequest_silent endpoint method payload c :
  backend (requests c)
    {| endpoint := endpoint; method := method; payload := payload |} = NoAnswer ->
  sendRequest endpoint method payload c =
  (Unsettled,
   push_request {| endpoint := endpoint; method := method; payload := payload |} c).
Proof. intros H. unfold sendRequest. by rewrite H. Qed.

(** *** How the response callback settles *)

Lemma settle_success res :
  statusCode res = 200 \/ statusCode res = 201 \/ statusCode res = 204 ->
  settle res = Resolved res.
Proof. unfold settle. by intros [-> | [-> | ->]]. Qed.

Lemma settle_resolved res r :
  settle res = Resolved r -> r = res /\ success res.
Proof.
  unfold settle, success.
  destruct (Z.eqb_spec (statusCode res) 200) as [->|];
    [intros [= <-]; auto|].
  destruct (Z.eqb_spec (statusCode res) 201) as [->|];
    [intros [= <-]; auto|].
  destruct (Z.eqb_spec (statusCode res) 204) as [->|];
    [intros [= <-]; auto|].
  cbn [orb]. cases.
Qed.

Lemma settle_conflict res :
  statusCode res = 409 ->
  settle res =
  match body res with
  | Json v =>
      match Js.get v "message" with
      | Some message => Rejected (RejectedValue message)
      | None => Unsettled
      end
  | _ => Unsettled
  end.
Proof.
  intros Hc. unfold settle, parsed. rewrite Hc. cbn.
  destruct (body res) as [v| |code msg|]; try done.
Qed.

Lemma settle_mute res : settle res = Unsettled <-> mute res.
Proof.
  unfold mute. split.
  - intros H. assert (statusCode res = 409) as Hc.
    { unfold settle in H. destruct (Z.eqb_spec (statusCode res) 409); [done|].
      revert H. cases. }
    split; [done|]. rewrite (settle_conflict res Hc) in H.
    intros v Hv. rewrite Hv in H. revert H. cases.
  - intros [Hc H]. rewrite (settle_conflict res Hc).
    destruct (body res) as [v| |code msg|]; [|done|done|done].
    by rewrite (H v eq_refl).
Qed.


(** *** The hash-lock operations *)

Lemma executeHashLockResolve_state pre c :
  (executeHashLockResolve pre c).2 =
  (sendRequest "/hashlock-resolve" "POST" (Some (ResolvePayload pre)) c).2.
Proof.
  unfold executeHashLockResolve, bind.
  destruct (sendRequest _ _ _ c) as [[res|e|] c']; cbn [snd]; try done.
  by destruct (_ && _).
Qed.

Lemma executeHashLockTransfer_state p c :
  (executeHashLockTransfer p c).2 =
  (sendRequest "/hashlock-transfer" "POST" (Some (TransferPayload p)) c).2.
Proof.
  unfold executeHashLockTransfer, bind, parseResponseBody, lift, destructure.
  destruct (sendRequest _ _ _ c) as [[res|e|] c']; cbn [snd]; try done.
  destruct (parsed res) as [v|e|]; try done.
  destruct (Js.get v "preImage") as [secret|]; [|done].
  unfold ret, throw. cases.
Qed.

Lemma executeHashLockResolve_requests pre c :
  requests (executeHashLockResolve pre c).2 =
  (requests c ++ [{| endpoint := "/hashlock-resolve"; method := "POST";
                     payload := Some (ResolvePayload pre) |}])%list.
Proof. rewrite executeHashLockResolve_state. apply sendRequest_requests. Qed.

Lemma executeHashLockTransfer_requests p c :
  requests (executeHashLockTransfer p c).2 =
  (requests c ++ [{| endpoint := "/hashlock-transfer"; method := "POST";
                     payload := Some (TransferPayload p) |}])%list.
Proof. rewrite executeHashLockTransfer_state. apply sendRequest_requests. Qed.

Lemma truthy_Some (v : option string) :
  Js.truthy v = true -> exists s, v = Some s /\ s <> "".
Proof.
  destruct v as [s|]; simpl; [|done].
  destruct (String.eqb_spec s ""); [done|]. eauto.
Qed.

Lemma startsWith_0x s :
  Js.startsWith s "0x" = true <-> exists rest, s = "0x" +:+ rest.
Proof.
  unfold Js.startsWith. rewrite String.prefix_correct. split.
  - destruct s as [|a [|b s]]; cbn; try discriminate.
    intros E. injection E as -> -> _. by exists s.
  - intros [rest ->]. cbn. by destruct rest.
Qed.


Lemma startsWith_no_0x s :
  (forall rest, s <> "0x" +:+ rest) -> Js.startsWith s "0x" = false.
Proof.
  intros Hs. destruct (Js.startsWith s "0x") eqn:E; [|done].
  apply startsWith_0x in E as [rest ->]. by destruct (Hs rest).
Qed.

(** What [executeHashLockTransfer] makes of an answer with a success
    status. *)
Lemma executeHashLockTransfer_responded p c res :
  backend (requests c) (transferRequest p) = Responded res -> success res ->
  executeHashLockTransfer p c =
  (match body res with
   | Json v =>
       match Js.get v "preImage" with
       | Some secret =>
           if Js.toBoolean secret then
             match secret with
             | Js.Str s =>
                 if Js.startsWith s "0x" then Resolved (Js.slice s 2)
                 else Rejected (ConnextError INVALID_TOKEN_PAYMENT_RESPONSE)
             | _ => Rejected (TypeError StartsWithOfNonString)
             end
           else Rejected (ConnextError INVALID_TOKEN_PAYMENT_RESPONSE)
       | None => Rejected (TypeError DestructureOfNull)
       end
   | NotJson => Unsettled
   | StreamError code msg => Rejected (NodeError code msg)
   | Stalled => Unsettled
   end,
   push_request (transferRequest p) c).
Proof.
  intros Hb Hok.
  unfold executeHashLockTransfer, bind, parseResponseBody, lift, destructure, parsed.
  rewrite (sendRequest_responded _ _ _ _ _ Hb), settle_success by done.
  destruct (body res) as [v| |code msg|]; [|done|done|done].
  destruct (Js.get v "preImage") as [secret|]; [|done].
  unfold ret, throw. cases.
Qed.

Lemma executeHashLockResolve_responded pre c res :
  backend (requests c) (resolveRequest pre) = Responded res -> success res ->
  executeHashLockResolve pre c =
  (if Js.truthy (Some pre) && Js.startsWith pre "0x" then Resolved (Js.slice pre 2)
   else Rejected (ConnextError INVALID_TOKEN_PAYMENT_RESPONSE),
   push_request (resolveRequest pre) c).
Proof.
  intros Hb Hok. unfold executeHashLockResolve, bind.
  rewrite (sendRequest_responded _ _ _ _ _ Hb), settle_success by done.
  by destruct (_ && _).
Qed.

(** *** [sendPayment] and its [catch] clause *)

(** The two asserts of [sendPayment] pass on an active deal with a
    destination. *)
Lemma sendPayment_active deal c :
  state deal = SwapState.Active -> Js.truthy (destination deal) = true ->
  sendPayment deal c = try_catch (sendPaymentLeg deal) caught c.
Proof.
  intros Hs Hd. unfold sendPayment, bind, assert.
  rewrite bool_decide_eq_true_2 by done. simpl. by rewrite Hd.
Qed.

(** A deal that fails an assert leaves the adapter as it was. *)
Lemma sendPayment_idle deal c :
  state deal <> SwapState.Active \/ Js.truthy (destination deal) = false ->
  sendPayment deal c = (Rejected AssertionError, c).
Proof.
  intros H. unfold sendPayment, bind, assert.
  case_bool_decide as Hs; simpl; [|done].
  destruct H as [H | ->]; done.
Qed.

Lemma sendPayment_cases deal c :
  sendPayment deal c = (Rejected AssertionError, c) \/
  (state deal = SwapState.Active /\ Js.truthy (destination deal) = true).
Proof.
  destruct (decide (state deal = SwapState.Active)) as [Hs|Hs];
    [|left; apply sendPayment_idle; by left].
  destruct (Js.truthy (destination deal)) eqn:Hd;
    [by right|left; apply sendPayment_idle; by right].
Qed.

Lemma classify_state {A} err c :
  (classify errorCodes errorMessages engineMessages (A:=A) err c).2 = c.
Proof. unfold classify, throw. cases. Qed.

(** Neither the classification of a failure nor the asserts issue a
    request. *)
Lemma try_catch_classify_state {A} (m : M Rejection A) c :
  (try_catch m (classify errorCodes errorMessages engineMessages) c).2 = (m c).2.
Proof.
  unfold try_catch. destruct (m c) as [[a|e|] c']; simpl; try done.
  apply classify_state.
Qed.

Lemma sendPaymentLeg_maker deal c pre :
  role deal = SwapRole.Maker -> rPreimage deal = Some pre -> pre <> "" ->
  sendPaymentLeg deal c = executeHashLockResolve pre c.
Proof.
  intros Hr Hp Hne. unfold sendPaymentLeg.
  rewrite Hr, Hp. simpl.
  destruct (String.eqb_spec pre ""); [done|]. done.
Qed.

Lemma sendPaymentLeg_taker deal c :
  role deal = SwapRole.Taker \/ Js.truthy (rPreimage deal) = false ->
  sendPaymentLeg deal c =
  executeHashLockTransfer
    {| amount := Js.numberToString (makerUnits deal);
       assetId := tokenAddresses c !! makerCurrency deal;
       lockHash := rHash deal; timelock := makerCltvDelta deal |} c.
Proof.
  intros H. unfold sendPaymentLeg.
  assert (bool_decide (role deal = SwapRole.Maker) && Js.truthy (rPreimage deal) = false) as ->.
  { destruct H as [-> | ->]; [done|]. apply andb_false_r. }
  done.
Qed.

Lemma isCode_spec (code : Js.value) (k : string) :
  isCode code k = true <-> code = Js.Str k.
Proof.
  unfold isCode, Js.strictEquals. destruct code; try done.
  rewrite String.eqb_eq. split; [by intros ->|by intros [= ->]].
Qed.

(** [undefined] and [null] are the caught values without [code] and without
    [message]. *)
Lemma errCode_None err : errCode err = None <-> propertyless err.
Proof.
  unfold propertyless. destruct err as [k|[code|] msg|v|site]; cbn.
  - split; [done|]. by intros [|].
  - split; [done|]. by intros [|].
  - split; [done|]. by intros [|].
  - destruct v; cbn; split; auto; try done; intros [[=]|[=]].
  - split; [done|]. by intros [|].
Qed.

Lemma errMessage_None err : errMessage err = None <-> propertyless err.
Proof.
  unfold propertyless. destruct err as [k|code msg|v|site]; cbn.
  - split; [done|]. by intros [|].
  - split; [done|]. by intros [|].
  - destruct v; cbn; split; auto; try done; intros [[=]|[=]].
  - split; [done|]. by intros [|].
Qed.

Lemma propertyless_dec err : propertyless err \/ ~ propertyless err.
Proof.
  destruct (errCode err) eqn:E.
  - right. intros H. apply errCode_None in H. congruence.
  - left. by apply errCode_None.
Qed.

Lemma classify_propertyless {A} err c :
  propertyless err ->
  classify errorCodes errorMessages engineMessages (A:=A) err c =
  (Rejected (Raw (TypeError PropertyOfUndefined)), c).
Proof.
  intros H. apply errCode_None in H. unfold classify. by rewrite H.
Qed.

Lemma classify_unknown_iff {A} err c code message :
  errCode err = Some code -> errMessage err = Some message ->
  (classify errorCodes errorMessages engineMessages (A:=A) err c).1 =
    Rejected (SwapError UNKNOWN_PAYMENT_ERROR message) <->
  unknownPaymentCode errorCodes code.
Proof.
  intros Hc Hm. unfold classify, unknownPaymentCode. rewrite Hc, Hm.
  destruct (_ || _) eqn:E; simpl.
  - repeat rewrite orb_true_iff in E. repeat rewrite isCode_spec in E.
    split; [intros _; tauto | done].
  - repeat rewrite orb_false_iff in E.
    destruct E as [[[[E1 E2] E3] E4] E5].
    split; [done|]. intros H.
    repeat destruct H as [H | H];
      apply isCode_spec in H; congruence.
Qed.

Lemma classify_settles {A} err c code message :
  errCode err = Some code -> errMessage err = Some message ->
  exists kind,
    classify errorCodes errorMessages engineMessages (A:=A) err c =
    (Rejected (SwapError kind message), c).
Proof.
  intros Hc Hm. unfold classify. rewrite Hc, Hm. destruct (_ || _); eauto.
Qed.

Lemma classify_unknown err c code message :
  errCode err = Some code -> errMessage err = Some message ->
  unknownPaymentCode errorCodes code ->
  caught err c = (Rejected (SwapError UNKNOWN_PAYMENT_ERROR message), c).
Proof.
  intros Hc Hm Hu.
  apply (classify_unknown_iff (A:=string) err c code message Hc Hm) in Hu.
  destruct (classify_settles (A:=string) err c code message Hc Hm) as [kind Hk].
  rewrite Hk in Hu |- *. cbn in Hu. by injection Hu as ->.
Qed.

Lemma classify_final err c code message :
  errCode err = Some code -> errMessage err = Some message ->
  ~ unknownPaymentCode errorCodes code ->
  caught err c = (Rejected (SwapError FINAL_PAYMENT_ERROR message), c).
Proof.
  intros Hc Hm Hu.
  destruct (classify_settles (A:=string) err c code message Hc Hm) as [kind Hk].
  destruct kind; [|done]. destruct Hu.
  apply (classify_unknown_iff (A:=string) err c code message Hc Hm). by rewrite Hk.
Qed.

(** The [catch] clause throws: it never resolves, and what it throws is a
    classified error or the [TypeError] of a value without properties. *)
Lemma classify_throws err c :
  (exists kind message, caught err c = (Rejected (SwapError kind message), c)) \/
  (propertyless err /\
   caught err c = (Rejected (Raw (TypeError PropertyOfUndefined)), c)).
Proof.
  destruct (propertyless_dec err) as [H|H].
  - right. split; [done|]. by apply classify_propertyless.
  - left. destruct (errCode err) as [code|] eqn:Hc;
      [|by destruct H; apply errCode_None].
    destruct (errMessage err) as [message|] eqn:Hm;
      [|by destruct H; apply errMessage_None].
    destruct (classify_settles (A:=string) err c code message Hc Hm) as [kind Hk].
    eauto.
Qed.

(** *** This node's leg of a deal *)

Lemma legRequest_eta deal c :
  {| endpoint := endpoint (legRequest deal c); method := method (legRequest deal c);
     payload := payload (legRequest deal c) |} = legRequest deal c.
Proof. by destruct (legRequest deal c). Qed.

(** The leg leaves the adapter as its one request leaves it. *)
Lemma sendPaymentLeg_state deal c :
  (sendPaymentLeg deal c).2 =
  (sendRequest (endpoint (legRequest deal c))
     (method (legRequest deal c)) (payload (legRequest deal c)) c).2.
Proof.
  unfold legRequest, sendPaymentLeg.
  destruct (_ && _); cbn [resolveRequest transferRequest endpoint method payload].
  - unfold bind at 1, gets. apply executeHashLockResolve_state.
  - unfold bind at 1, gets. apply executeHashLockTransfer_state.
Qed.

(** Whatever the request of the leg rejects with, the leg rejects with; and
    when that request is never settled, neither is the leg. *)
Lemma sendPaymentLeg_rejected deal c err c1 :
  sendRequest (endpoint (legRequest deal c)) (method (legRequest deal c))
    (payload (legRequest deal c)) c = (Rejected err, c1) ->
  sendPaymentLeg deal c = (Rejected err, c1).
Proof.
  unfold legRequest, sendPaymentLeg.
  destruct (_ && _); cbn [resolveRequest transferRequest endpoint method payload];
    intros Hr.
  - unfold bind, gets, executeHashLockResolve, bind. by rewrite Hr.
  - unfold bind, gets, executeHashLockTransfer, bind. by rewrite Hr.
Qed.

Lemma sendPaymentLeg_unsettled deal c c1 :
  sendRequest (endpoint (legRequest deal c)) (method (legRequest deal c))
    (payload (legRequest deal c)) c = (Unsettled, c1) ->
  sendPaymentLeg deal c = (Unsettled, c1).
Proof.
  unfold legRequest, sendPaymentLeg.
  destruct (_ && _); cbn [resolveRequest transferRequest endpoint method payload];
    intros Hr.
  - unfold bind, gets, executeHashLockResolve, bind. by rewrite Hr.
  - unfold bind, gets, executeHashLockTransfer, bind. by rewrite Hr.
Qed.

Lemma sendRequest_leg_responded deal c res :
  backend (requests c) (legRequest deal c) = Responded res ->
  sendRequest (endpoint (legRequest deal c)) (method (legRequest deal c))
    (payload (legRequest deal c)) c = (settle res, push_request (legRequest deal c) c).
Proof.
  intros Hb. rewrite <- (legRequest_eta deal c) in Hb.
  rewrite (sendRequest_responded _ _ _ _ _ Hb). by rewrite legRequest_eta.
Qed.

Lemma sendRequest_leg_failed deal c code msg :
  backend (requests c) (legRequest deal c) = RequestError code msg ->
  sendRequest (endpoint (legRequest deal c)) (method (legRequest deal c))
    (payload (legRequest deal c)) c =
  (Rejected (NodeError code msg),
   if bool_decide (code = Some "ECONNREFUSED")
   then set_status ClientStatus.Disconnected (push_request (legRequest deal c) c)
   else push_request (legRequest deal c) c).
Proof.
  intros Hb. rewrite <- (legRequest_eta deal c) in Hb.
  rewrite (sendRequest_failed _ _ _ _ _ _ Hb). by rewrite legRequest_eta.
Qed.

Lemma sendRequest_leg_silent deal c :
  backend (requests c) (legRequest deal c) = NoAnswer ->
  sendRequest (endpoint (legRequest deal c)) (method (legRequest deal c))
    (payload (legRequest deal c)) c = (Unsettled, push_request (legRequest deal c) c).
Proof.
  intros Hb. rewrite <- (legRequest_eta deal c) in Hb.
  rewrite (sendRequest_silent _ _ _ _ Hb). by rewrite legRequest_eta.
Qed.

(** The leg on an answer with a success status. *)
Lemma sendPaymentLeg_responded deal c res :
  backend (requests c) (legRequest deal c) = Responded res ->
  success res ->
  sendPaymentLeg deal c =
  (if bool_decide (role deal = SwapRole.Maker) && Js.truthy (rPreimage deal) then
     if Js.startsWith (default "" (rPreimage deal)) "0x"
     then Resolved (Js.slice (default "" (rPreimage deal)) 2)
     else Rejected (ConnextError INVALID_TOKEN_PAYMENT_RESPONSE)
   else (executeHashLockTransfer
           {| amount := Js.numberToString (makerUnits deal);
              assetId := tokenAddresses c !! makerCurrency deal;
              lockHash := rHash deal; timelock := makerCltvDelta deal |} c).1,
   push_request (legRequest deal c) c).
Proof.
  unfold legRequest, sendPaymentLeg.
  destruct (_ && _) eqn:Hbranch; intros Hb Hok.
  - unfold bind at 1, gets.
    rewrite (executeHashLockResolve_responded _ c res Hb Hok).
    apply andb_true_iff in Hbranch as [_ Htruthy].
    destruct (rPreimage deal) as [pre|]; [|done].
    cbn [default from_option Datatypes.id]. by rewrite Htruthy.
  - unfold bind at 1, gets.
    by rewrite (executeHashLockTransfer_responded _ c res Hb Hok).
Qed.


(** *** The claims *)

(** C1 (as amended).  A Maker whose [rPreimage] is set settles its leg
    through [executeHashLockResolve], which is handed the preimage and
    nothing else: [sendPayment] issues the single request
    POST /hashlock-resolve with the payload [{ preImage }] and no request to
    /hashlock-transfer.  In every other case (a Taker, or a Maker without a
    preimage) it goes through [executeHashLockTransfer] with the maker
    currency's token address, [makerUnits] as a string, the deal's [rHash]
    and [makerCltvDelta] as the time lock: the single request is
    POST /hashlock-transfer with that payload, and none goes to
    /hashlock-resolve.  The call is made when the deal passes the two
    asserts of [sendPayment]; on any other deal there is no request at
    all. *)
Theorem sendPayment_role_branch deal c :
  (role deal = SwapRole.Maker -> Js.truthy (rPreimage deal) = true ->
   exists pre,
     rPreimage deal = Some pre /\
     payloadFields (ResolvePayload pre) = [("preImage", JString pre)] /\
     (requests (sendPayment deal c).2 = requests c \/
      requests (sendPayment deal c).2 = (requests c ++ [resolveRequest pre])%list) /\
     (state deal = SwapState.Active -> Js.truthy (destination deal) = true ->
      sendPayment deal c = try_catch (executeHashLockResolve pre) caught c /\
      requests (sendPayment deal c).2 = (requests c ++ [resolveRequest pre])%list))
  /\
  (state deal <> SwapState.Active \/ Js.truthy (destination deal) = false ->
   requests (sendPayment deal c).2 = requests c)
  /\
  (role deal = SwapRole.Taker \/ Js.truthy (rPreimage deal) = false ->
   let p := {| amount := Js.numberToString (makerUnits deal);
               assetId := tokenAddresses c !! makerCurrency deal;
               lockHash := rHash deal; timelock := makerCltvDelta deal |} in
   (requests (sendPayment deal c).2 = requests c \/
    requests (sendPayment deal c).2 = (requests c ++ [transferRequest p])%list) /\
   (state deal = SwapState.Active -> Js.truthy (destination deal) = true ->
    sendPayment deal c = try_catch (executeHashLockTransfer p) caught c /\
    requests (sendPayment deal c).2 = (requests c ++ [transferRequest p])%list)).
Proof.
  split; [|split].
  - intros Hr Hp. destruct (truthy_Some _ Hp) as (pre & Hpre & Hne).
    exists pre. split; [done|]. split; [done|].
    assert (state deal = SwapState.Active -> Js.truthy (destination deal) = true ->
            sendPayment deal c = try_catch (executeHashLockResolve pre) caught c /\
            requests (sendPayment deal c).2 = (requests c ++ [resolveRequest pre])%list)
      as Hactive.
    { intros Hs Hd. rewrite sendPayment_active by done.
      assert (try_catch (sendPaymentLeg deal) caught c =
              try_catch (executeHashLockResolve pre) caught c) as ->.
      { unfold try_catch. by rewrite (sendPaymentLeg_maker deal c pre). }
      split; [done|].
      rewrite try_catch_classify_state. apply executeHashLockResolve_requests. }
    split; [|done].
    destruct (sendPayment_cases deal c) as [-> | [Hs Hd]]; [by left|].
    right. by apply Hactive.
  - intros H. by rewrite sendPayment_idle.
  - intros H p.
    assert (state deal = SwapState.Active -> Js.truthy (destination deal) = true ->
            sendPayment deal c = try_catch (executeHashLockTransfer p) caught c /\
            requests (sendPayment deal c).2 = (requests c ++ [transferRequest p])%list)
      as Hactive.
    { intros Hs Hd. rewrite sendPayment_active by done.
      assert (try_catch (sendPaymentLeg deal) caught c =
              try_catch (executeHashLockTransfer p) caught c) as ->.
      { unfold try_catch. by rewrite (sendPaymentLeg_taker deal c). }
      split; [done|].
      rewrite try_catch_classify_state. apply executeHashLockTransfer_requests. }
    split; [|done].
    destruct (sendPayment_cases deal c) as [-> | [Hs Hd]]; [by left|].
    right. by apply Hactive.
Qed.

(** C2.  On a deal that is not active, or that has no destination,
    [sendPayment] throws the assertion error and leaves the adapter as it
    was: no request has been issued.  On an active deal with a destination
    it never ends in the assertion error. *)
Theorem sendPayment_asserts deal c :
  (state deal <> SwapState.Active \/ Js.truthy (destination deal) = false ->
   sendPayment deal c = (Rejected AssertionError, c))
  /\
  (state deal = SwapState.Active -> Js.truthy (destination deal) = true ->
   (sendPayment deal c).1 <> Rejected AssertionError).
Proof.
  split.
  - apply sendPayment_idle.
  - intros Hs Hd. rewrite sendPayment_active by done.
    unfold try_catch. destruct (sendPaymentLeg deal c) as [[a|e|] c']; simpl; try done.
    destruct (classify_throws e c') as [(kind & message & ->) | [_ ->]]; done.
Qed.


(** C4.  The status code of the response decides how [sendRequest] settles:
    200, 201 and 204 resolve with the response; 402 rejects with
    [INSUFFICIENT_BALANCE], 408 with [TIMEOUT], 409 with the message of the
    response body, 500 with [SERVER_ERROR], and any other code with
    [UNEXPECTED].  A 409 whose body yields no message, because it is no JSON
    or is [null], leaves the request unsettled. *)
Theorem sendRequest_status_code endpoint method payload c res :
  backend (requests c)
    {| endpoint := endpoint; method := method; payload := payload |} = Responded res ->
  let settled := (sendRequest endpoint method payload c).1 in
  (statusCode res = 200 \/ statusCode res = 201 \/ statusCode res = 204 ->
   settled = Resolved res) /\
  (statusCode res = 402 -> settled = Rejected (ConnextError INSUFFICIENT_BALANCE)) /\
  (statusCode res = 408 -> settled = Rejected (ConnextError TIMEOUT)) /\
  (statusCode res = 409 ->
   forall v message, body res = Json v -> Js.get v "message" = Some message ->
   settled = Rejected (RejectedValue message)) /\
  (statusCode res = 500 -> settled = Rejected (ConnextError SERVER_ERROR)) /\
  (~ In (statusCode res) [200; 201; 204; 402; 408; 409; 500] ->
   settled = Rejected (ConnextError UNEXPECTED)) /\
  (mute res -> settled = Unsettled).
Proof.
  intros Hb settled. subst settled.
  rewrite (sendRequest_responded _ _ _ _ _ Hb). cbn [fst].
  split; [apply settle_success|].
  split; [unfold settle; by intros ->|].
  split; [unfold settle; by intros ->|].
  split.
  { intros Hc v message Hv Hm. by rewrite (settle_conflict res Hc), Hv, Hm. }
  split; [unfold settle; by intros ->|].
  split; [|apply settle_mute].
  intros Hn. simpl in Hn. unfold settle.
  repeat
    (match goal with
     | |- context [(?a =? ?b)%Z] =>
         destruct (Z.eqb_spec a b); [exfalso; apply Hn; lia|]
     end); done.
Qed.









(** C7.  Without a seed [initSpecific] throws its missing-credentials error
    and leaves the adapter untouched: no request is issued, no event emitted,
    and the status is what it was.  This is so in particular for a freshly
    constructed adapter, whose status stays [NotInitialized]. *)
Theorem initSpecific_without_seed c currencyInstances :
  (seed c = None ->
   initSpecific c = (Rejected MissingCredentials, c)) /\
  initSpecific (newClient currencyInstances) =
    (Rejected MissingCredentials, newClient currencyInstances) /\
  status (initSpecific (newClient currencyInstances)).2 = ClientStatus.NotInitialized /\
  requests (initSpecific (newClient currencyInstances)).2 = [].
Proof.
  assert (forall c', seed c' = None ->
            initSpecific c' = (Rejected MissingCredentials, c')) as H.
  { intros c' Hseed. unfold initSpecific, bind, gets. by rewrite Hseed. }
  split; [apply H|]. rewrite (H (newClient currencyInstances)) by done. done.
Qed.

(** C8.  Without a currency [channelBalance] resolves with the all-zero
    balance and issues no request: the adapter is left as it was.  The same
    holds of any currency argument that is falsy, the empty string
    included. *)
Theorem channelBalance_no_currency c :
  channelBalance None c =
    (Resolved {| balance := 0; pendingOpenBalance := 0; inactiveBalance := 0 |}, c)
  /\
  requests (channelBalance None c).2 = requests c
  /\
  (forall currency, Js.truthy currency = false ->
   channelBalance currency c =
     (Resolved {| balance := 0; pendingOpenBalance := 0; inactiveBalance := 0 |}, c)).
Proof.
  assert (forall currency, Js.truthy currency = false ->
            channelBalance currency c =
            (Resolved {| balance := 0; pendingOpenBalance := 0;
                         inactiveBalance := 0 |}, c)) as H.
  { intros currency Hc. unfold channelBalance. by rewrite Hc. }
  split; [by apply H|]. split; [by rewrite H|]. exact H.
Qed.


End ConnextClientFacts.

(** *** The claims on a concrete node *)

Section OnSample.

Import Sample.

Lemma sendPayment_role_branch_witness :
  role makerDeal = SwapRole.Maker /\
  Js.truthy (rPreimage makerDeal) = true /\
  state makerDeal = SwapState.Active /\
  Js.truthy (destination makerDeal) = true /\
  exists pre,
    rPreimage makerDeal = Some pre /\
    requests (sendPayment accepting codes messages engine makerDeal client).2 =
      (requests client ++ [resolveRequest pre])%list.
Proof.
  repeat (split; [reflexivity|]).
  destruct (proj1 (sendPayment_role_branch accepting codes messages engine
                     makerDeal client) eq_refl eq_refl)
    as (pre & Hpre & _ & _ & Hactive).
  exists pre. split; [exact Hpre|]. exact (proj2 (Hactive eq_refl eq_refl)).
Defined.

(** C1, as the specification words it, has the resolve call take the taker
    currency's token address and [takerUnits], and has it made for every
    deal.  On the maker deal of the sample (taker currency ETH at 0xe7e, 250
    taker units) the one request that [sendPayment] issues goes to
    /hashlock-resolve and carries the preimage only: neither the token
    address nor the amount, as a number or as a string.  And on the same
    deal before it is active, [sendPayment] issues no request at all. *)
Lemma sendPayment_resolve_carries_preimage_only :
  (role makerDeal = SwapRole.Maker /\
   Js.truthy (rPreimage makerDeal) = true /\
   tokenAddresses client !! takerCurrency makerDeal = Some "0xe7e" /\
   takerUnits makerDeal = 250 /\
   exists r,
     requests (sendPayment accepting codes messages engine makerDeal client).2 = [r] /\
     endpoint r = "/hashlock-resolve" /\
     ~ carries r (JString "0xe7e") /\
     ~ carries r (JNumber 250) /\
     ~ carries r (JString "250"))
  /\
  (role idleMakerDeal = SwapRole.Maker /\
   Js.truthy (rPreimage idleMakerDeal) = true /\
   requests (sendPayment accepting codes messages engine idleMakerDeal client).2 = []).
Proof.
  split; [|repeat split; reflexivity].
  repeat (split; [reflexivity|]).
  exists (resolveRequest "0xabc").
  split; [reflexivity|]. split; [reflexivity|].
  repeat split; intros (p & k & Hp & Hin); injection Hp as <-;
    simpl in Hin; destruct Hin as [Hin | []]; discriminate Hin.
Qed.

Lemma sendPayment_asserts_witness :
  (state createdDeal <> SwapState.Active \/ Js.truthy (destination createdDeal) = false) /\
  sendPayment accepting codes messages engine createdDeal client =
    (Rejected AssertionError, client) /\
  state takerDeal = SwapState.Active /\
  Js.truthy (destination takerDeal) = true /\
  (sendPayment accepting codes messages engine takerDeal client).1 <>
    Rejected AssertionError.
Proof.
  assert (state createdDeal <> SwapState.Active \/ Js.truthy (destination createdDeal) = false)
    as H by (left; discriminate).
  split; [exact H|].
  split;
    [exact (proj1 (sendPayment_asserts accepting codes messages engine createdDeal
                     client) H)|].
  repeat (split; [reflexivity|]).
  exact (proj2 (sendPayment_asserts accepting codes messages engine takerDeal client)
           eq_refl eq_refl).
Defined.


Lemma sendRequest_status_code_witness :
  short (requests client)
    {| endpoint := "/hashlock-transfer"; method := "POST"; payload := None |} =
    Responded (reply 402 None "") /\
  (sendRequest short "/hashlock-transfer" "POST" None client).1 =
    Rejected (ConnextError INSUFFICIENT_BALANCE).
Proof.
  split; [reflexivity|].
  exact (proj1 (proj2 (sendRequest_status_code short "/hashlock-transfer" "POST"
                         None client _ eq_refl)) eq_refl).
Defined.




Lemma initSpecific_without_seed_witness :
  seed client = None /\
  initSpecific accepting client = (Rejected MissingCredentials, client).
Proof.
  split; [reflexivity|].
  exact (proj1 (initSpecific_without_seed accepting client currencies) eq_refl).
Defined.

Lemma channelBalance_no_currency_witness :
  Js.truthy (Some "") = false /\
  channelBalance accepting units (Some "") client =
    (Resolved {| balance := 0; pendingOpenBalance := 0; inactiveBalance := 0 |}, client).
Proof.
  split; [reflexivity|].
  exact (proj2 (proj2 (channelBalance_no_currency accepting units client))
           (Some "") eq_refl).
Defined.



(** *** Scenarios of the specification, run *)

(** A taker deal of 1000 maker units: the transfer carries the amount as a
    string, the token address of the maker currency, the hash and the time
    lock; the node answers with a preimage, which comes back without its
    prefix. *)
Example taker_pays_maker :
  let run := sendPayment accepting codes messages engine takerDeal client in
  run.1 = Resolved "dead" /\
  requests run.2 =
    [transferRequest {| amount := "1000"; assetId := Some "0xda1";
                        lockHash := "c0ffee"; timelock := Some 576 |}].
Proof. split; reflexivity. Qed.

(** The node answers 408: the payment is in an unknown state, and looking
    it up on a node that reports it pending gives [Pending]. *)
Example timeout_then_lookup :
  (sendPayment (always (Responded (reply 408 None ""))) codes messages engine
     takerDeal client).1 =
    Rejected (SwapError UNKNOWN_PAYMENT_ERROR (Js.Str "request timeout")) /\
  (lookupPayment accepting "c0ffee" client).1 = Resolved PaymentState.Pending.
Proof. split; reflexivity. Qed.

(** The connection is refused: the adapter is disconnected, and the payment
    has failed for good. *)
Example connection_refused :
  let node := always (RequestError (Some "ECONNREFUSED") "connect ECONNREFUSED") in
  let run := sendPayment node codes messages engine takerDeal client in
  run.1 = Rejected (SwapError FINAL_PAYMENT_ERROR (Js.Str "connect ECONNREFUSED")) /\
  status run.2 = ClientStatus.Disconnected.
Proof. split; reflexivity. Qed.

(** With a seed, [initSpecific] connects, announces itself and verifies the
    connection. *)
Example initSpecific_with_seed :
  let run := initSpecific accepting (set_seed (Some "seed") client) in
  run.1 = Resolved tt /\
  status run.2 = ClientStatus.ConnectionVerified /\
  emitted run.2 = ["initialized"; "connectionVerified"] /\
  map endpoint (requests run.2) = ["/connect"; "/health"].
Proof. repeat split; reflexivity. Qed.

End OnSample.

(** * More properties of the Connext adapter *)

(** ** The token addresses of a new adapter *)

Section TokenAddresses.

Implicit Types (currency : CurrencyInstance) (m : gmap string string).

(** One turn of the loop of [setTokenAddresses]. *)
Lemma setTokenAddresses_cons currency cis m :
  setTokenAddresses (currency :: cis) m =
  setTokenAddresses cis
    (match tokenAddress currency with
     | Some t =>
         if Js.truthy (Some t)
            && bool_decide (swapClient currency = SwapClientType.Connext)
         then <[id currency := t]> m else m
     | None => m
     end).
Proof. reflexivity. Qed.

Lemma registers_dec currency :
  (exists t, registers currency (id currency) t /\
             forall m, setTokenAddresses [currency] m = <[id currency := t]> m) \/
  ((forall k t, ~ registers currency k t) /\
   forall m, setTokenAddresses [currency] m = m).
Proof.
  unfold registers, setTokenAddresses. cbn [fold_left].
  destruct (tokenAddress currency) as [t|] eqn:Ht.
  - cbn [Js.truthy]. destruct (String.eqb_spec t "") as [->|Hne]; cbn [negb andb].
    + right. split; [|done]. intros k t (_ & [= <-] & Hne & _). done.
    + case_bool_decide as Hc.
      * left. exists t. done.
      * right. split; [|done]. intros k t' (_ & _ & _ & Hc'). done.
  - right. split; [|done]. intros k t (_ & [=] & _).
Qed.

Lemma setTokenAddresses_step currency cis m :
  setTokenAddresses (currency :: cis) m =
  setTokenAddresses cis (setTokenAddresses [currency] m).
Proof. reflexivity. Qed.

(** Currencies that do not register under [k] leave the entry of [k] as it
    is. *)
Lemma setTokenAddresses_other cis : forall m k,
  (forall currency t, In currency cis -> ~ registers currency k t) ->
  setTokenAddresses cis m !! k = m !! k.
Proof.
  induction cis as [|currency cis IH]; intros m k Hno; [done|].
  rewrite setTokenAddresses_step, IH by (intros; apply Hno; by right).
  destruct (registers_dec currency) as [(t & Hreg & ->) | [_ ->]]; [|done].
  apply lookup_insert_ne. intros Hk. apply (Hno currency t); [by left|].
  by rewrite <- Hk.
Qed.

Lemma setTokenAddresses_sound cis : forall m k t,
  setTokenAddresses cis m !! k = Some t ->
  m !! k = Some t \/ exists currency, In currency cis /\ registers currency k t.
Proof.
  induction cis as [|currency cis IH]; intros m k t Hk; [by left|].
  rewrite setTokenAddresses_step in Hk. apply IH in Hk as [Hk | (c' & Hin & Hreg)].
  - destruct (registers_dec currency) as [(t' & Hreg & Heq) | [_ Heq]];
      rewrite Heq in Hk; [|by left].
    destruct (decide (id currency = k)) as [<-|Hne].
    + rewrite lookup_insert_eq in Hk. injection Hk as <-.
      right. exists currency. split; [by left|done].
    + rewrite lookup_insert_ne in Hk by done. by left.
  - right. exists c'. split; [by right|done].
Qed.

Lemma setTokenAddresses_complete cis : forall m k,
  is_Some (m !! k) \/ (exists currency t, In currency cis /\ registers currency k t) ->
  is_Some (setTokenAddresses cis m !! k).
Proof.
  induction cis as [|currency cis IH]; intros m k H.
  { destruct H as [H | (c' & t & [] & _)]. done. }
  rewrite setTokenAddresses_step. apply IH.
  destruct (registers_dec currency) as [(t' & Hreg & ->) | [Hno ->]].
  - destruct (decide (id currency = k)) as [<-|Hne].
    + left. rewrite lookup_insert_eq. eauto.
    + rewrite lookup_insert_ne by done.
      destruct H as [H | (c' & t & [<- | Hin] & Hreg')]; [by left| |by right; eauto].
      destruct Hreg' as [Hid _]. done.
  - destruct H as [H | (c' & t & [<- | Hin] & Hreg')]; [by left| |by right; eauto].
    by destruct (Hno k t).
Qed.

(** X1.  The token addresses of a new adapter are those of the currency
    instances that are served by Connext and have a non-empty token address:
    every entry stems from such an instance, every such instance has an
    entry under its id, and of several instances with one id the last one
    decides. *)
Theorem newClient_tokenAddresses cis k :
  (forall t, tokenAddresses (newClient cis) !! k = Some t ->
             exists currency, In currency cis /\ registers currency k t)
  /\
  ((exists currency t, In currency cis /\ registers currency k t) ->
   is_Some (tokenAddresses (newClient cis) !! k))
  /\
  (forall before currency after t,
     cis = (before ++ currency :: after)%list ->
     registers currency k t ->
     (forall later t', In later after -> ~ registers later k t') ->
     tokenAddresses (newClient cis) !! k = Some t).
Proof.
  cbn [newClient tokenAddresses]. split; [|split].
  - intros t Hk. apply setTokenAddresses_sound in Hk as [Hk | Hk]; [|done].
    by rewrite lookup_empty in Hk.
  - intros H. apply setTokenAddresses_complete. by right.
  - intros before currency after t -> Hreg Hlater.
    unfold setTokenAddresses at 1. rewrite fold_left_app.
    fold (setTokenAddresses before ∅).
    fold (setTokenAddresses (currency :: after) (setTokenAddresses before ∅)).
    rewrite setTokenAddresses_step, setTokenAddresses_other by done.
    destruct (registers_dec currency) as [(t' & Hreg' & ->) | [Hno _]].
    + destruct Hreg as (<- & Ht & _), Hreg' as (_ & Ht' & _).
      rewrite lookup_insert_eq. congruence.
    + by destruct (Hno k t).
Qed.

End TokenAddresses.

(** ** Requests, status and what an operation leaves alone *)

Section ConnextClientMore.

Variable backend : list Request -> Request -> HttpOutcome.
Variable errorCodes : ConnextErrorKind -> string.
Variable errorMessages : ConnextErrorKind -> string.
Variable engineMessages : TypeErrorSite -> string.
Variable unitsToAmount : string -> Js.value -> Result Thrown Z.

Local Abbreviation sendRequest := (sendRequest backend).
Local Abbreviation executeHashLockTransfer := (executeHashLockTransfer backend).
Local Abbreviation executeHashLockResolve := (executeHashLockResolve backend).
Local Abbreviation sendPaymentLeg := (sendPaymentLeg backend).
Local Abbreviation sendPayment :=
  (sendPayment backend errorCodes errorMessages engineMessages).
Local Abbreviation caught :=
  (classify errorCodes errorMessages engineMessages (A:=string)).
Local Abbreviation errCode := (errCode errorCodes).
Local Abbreviation errMessage := (errMessage errorMessages engineMessages).
Local Abbreviation sendSmallestAmount := (sendSmallestAmount backend).
Local Abbreviation lookupPayment := (lookupPayment backend).
Local Abbreviation getHashLockStatus := (getHashLockStatus backend).
Local Abbreviation initSpecific := (initSpecific backend).
Local Abbreviation initConnextClient := (initConnextClient backend).
Local Abbreviation channelBalance := (channelBalance backend unitsToAmount).

(** What [sendRequest] does to the adapter. *)
Lemma sendRequest_effect endpoint method payload c :
  let req := {| endpoint := endpoint; method := method; payload := payload |} in
  let c' := (sendRequest endpoint method payload c).2 in
  requests c' = (requests c ++ [req])%list /\
  sameConfiguration c c' /\
  ((exists msg, backend (requests c) req = RequestError (Some "ECONNREFUSED") msg) ->
   status c' = ClientStatus.Disconnected) /\
  ((forall msg, backend (requests c) req <> RequestError (Some "ECONNREFUSED") msg) ->
   status c' = status c).
Proof.
  cbv zeta. unfold sendRequest.
  destruct (backend _ _) as [res|code msg|] eqn:Hb; cbn [snd].
  - repeat split; try done. by intros [msg [=]].
  - case_bool_decide as Hcode.
    + subst code. repeat split; try done. intros Hn. by destruct (Hn msg).
    + repeat split; try done. intros [msg' [= -> _]]. done.
  - repeat split; try done. by intros [msg [=]].
Qed.

(** [sendRequest] resolves exactly on an answer with a success status. *)
Lemma sendRequest_resolved endpoint method payload c r :
  (sendRequest endpoint method payload c).1 = Resolved r <->
  backend (requests c)
    {| endpoint := endpoint; method := method; payload := payload |} = Responded r /\
  success r.
Proof.
  unfold sendRequest. split.
  - destruct (backend _ _) as [res|code msg|]; cbn [fst]; [|done|done].
    intros H. apply settle_resolved in H as [-> H]. done.
  - intros [-> Hok]. cbn [fst]. by apply settle_success.
Qed.

(** It is left unsettled exactly by a node that never answers and by a 409
    that yields no message. *)
Lemma sendRequest_unsettled endpoint method payload c :
  (sendRequest endpoint method payload c).1 = Unsettled <->
  silenced backend c {| endpoint := endpoint; method := method; payload := payload |}.
Proof.
  unfold sendRequest, silenced. split.
  - destruct (backend _ _) as [res|code msg|]; cbn [fst]; [|done|by left].
    intros H. apply settle_mute in H. eauto.
  - intros [-> | (res & -> & Hm)]; cbn [fst]; [done|]. by apply settle_mute.
Qed.

(** A response, by what [sendRequest] makes of it. *)
Lemma settle_cases res :
  (success res /\ settle res = Resolved res) \/
  (mute res /\ settle res = Unsettled) \/
  (~ success res /\ ~ mute res /\ exists err, settle res = Rejected err).
Proof.
  destruct (settle res) as [r|err|] eqn:E.
  - left. by apply settle_resolved in E as [-> H].
  - right. right. split; [|split; [|eauto]].
    + intros H. apply settle_success in H. congruence.
    + intros H. apply settle_mute in H. congruence.
  - right. left. split; [|done]. by apply settle_mute.
Qed.

Lemma sendRequest_status endpoint method payload c :
  status (sendRequest endpoint method payload c).2 = status c \/
  status (sendRequest endpoint method payload c).2 = ClientStatus.Disconnected.
Proof.
  unfold sendRequest.
  destruct (backend _ _) as [res|code msg|]; cbn [snd]; [by left| |by left].
  case_bool_decide; [by right|by left].
Qed.

(** *** [getTokenAddress] and [sendSmallestAmount] *)

Lemma getTokenAddress_found currency c t :
  tokenAddresses c !! currency = Some t -> t <> "" ->
  getTokenAddress currency c = (Resolved t, c).
Proof.
  intros Ht Hne. unfold getTokenAddress, bind, gets. rewrite Ht.
  cbn [Js.truthy]. destruct (String.eqb_spec t ""); [done|]. done.
Qed.

Lemma getTokenAddress_missing currency c :
  tokenAddresses c !! currency = None \/ tokenAddresses c !! currency = Some "" ->
  getTokenAddress currency c = (Rejected (ConnextError TOKEN_ADDRESS_NOT_FOUND), c).
Proof.
  intros H. unfold getTokenAddress, bind, gets. by destruct H as [-> | ->].
Qed.

(** X2.  On an adapter with the token addresses of its construction,
    [getTokenAddress] resolves exactly for the currencies that an instance
    served by Connext registers, with the address of such an instance, and
    rejects with [TOKEN_ADDRESS_NOT_FOUND] for every other currency.  Either
    way it leaves the adapter as it was. *)
Theorem getTokenAddress_newClient cis c k :
  tokenAddresses c = tokenAddresses (newClient cis) ->
  (getTokenAddress k c).2 = c
  /\
  ((exists currency t, In currency cis /\ registers currency k t) ->
   exists currency t, In currency cis /\ registers currency k t /\
                      (getTokenAddress k c).1 = Resolved t)
  /\
  ((forall currency t, In currency cis -> ~ registers currency k t) ->
   (getTokenAddress k c).1 = Rejected (ConnextError TOKEN_ADDRESS_NOT_FOUND)).
Proof.
  intros Hc. split; [|split].
  - unfold getTokenAddress, bind, gets. by destruct (negb _).
  - intros H.
    destruct (setTokenAddresses_complete cis ∅ k) as [t Ht]; [by right|].
    destruct (setTokenAddresses_sound cis ∅ k t Ht) as [He | (currency & Hin & Hreg)];
      [by rewrite lookup_empty in He|].
    exists currency, t. split; [done|]. split; [done|].
    rewrite (getTokenAddress_found k c t); [done| |by destruct Hreg as (_ & _ & ? & _)].
    by rewrite Hc.
  - intros Hno. rewrite getTokenAddress_missing; [done|]. left.
    rewrite Hc. cbn [newClient tokenAddresses].
    rewrite setTokenAddresses_other by done. apply lookup_empty.
Qed.

(** X3.  [sendSmallestAmount] rejects with [TOKEN_ADDRESS_NOT_FOUND], and
    issues no request, for a currency without token address.  For a
    currency with the token address [t] it is the hash-locked transfer of
    the amount 1 of [t] under the hash, with the final lock of 100 as the
    time lock; the destination it is given plays no part. *)
Theorem sendSmallestAmount_transfer rHash destination currency c :
  (tokenAddresses c !! currency = None \/ tokenAddresses c !! currency = Some "" ->
   sendSmallestAmount rHash destination currency c =
     (Rejected (ConnextError TOKEN_ADDRESS_NOT_FOUND), c))
  /\
  (forall t, tokenAddresses c !! currency = Some t -> t <> "" ->
   let p := {| amount := "1"; assetId := Some t; lockHash := rHash;
               timelock := Some 100 |} in
   sendSmallestAmount rHash destination currency c = executeHashLockTransfer p c /\
   requests (sendSmallestAmount rHash destination currency c).2 =
     (requests c ++ [transferRequest p])%list)
  /\
  (forall destination',
     sendSmallestAmount rHash destination' currency c =
     sendSmallestAmount rHash destination currency c).
Proof.
  split; [|split].
  - intros H. unfold sendSmallestAmount, bind.
    by rewrite getTokenAddress_missing.
  - intros t Ht Hne p.
    assert (sendSmallestAmount rHash destination currency c =
            executeHashLockTransfer p c) as ->.
    { unfold sendSmallestAmount, bind.
      by rewrite (getTokenAddress_found currency c t). }
    split; [done|]. apply executeHashLockTransfer_requests.
  - done.
Qed.

(** *** Connecting *)

Lemma verifyConnection_verified {E} c res :
  backend (requests c) {| endpoint := "/health"; method := "GET"; payload := None |} =
    Responded res ->
  success res ->
  verifyConnection backend (E:=E) c =
  (Resolved tt,
   set_status ClientStatus.ConnectionVerified
     (push_event "connectionVerified"
        (push_request {| endpoint := "/health"; method := "GET"; payload := None |} c))).
Proof.
  intros Hb Hok. unfold verifyConnection, try_catch, bind.
  rewrite (sendRequest_responded _ _ _ _ _ _ Hb), settle_success by done.
  reflexivity.
Qed.

Lemma verifyConnection_failed {E} c err c' :
  sendRequest "/health" "GET" None c = (Rejected err, c') ->
  verifyConnection backend (E:=E) c = (Resolved tt, set_status ClientStatus.Disconnected c').
Proof.
  intros Hr. unfold verifyConnection, try_catch, bind. rewrite Hr. reflexivity.
Qed.

Lemma verifyConnection_unsettled {E} c c' :
  sendRequest "/health" "GET" None c = (Unsettled, c') ->
  verifyConnection backend (E:=E) c = (Unsettled, c').
Proof.
  intros Hr. unfold verifyConnection, try_catch, bind. rewrite Hr. reflexivity.
Qed.

(** X4.  [verifyConnection] never throws and asks the node for /health,
    once.  When the node answers with a success status the adapter is
    [ConnectionVerified] and has emitted [connectionVerified]; when the
    request is rejected, by a failure of the connection or by any other
    answer that yields something to reject with, it is [Disconnected] and
    has emitted nothing.  The request is left unsettled by a node that never
    answers and by a 409 that yields no message, and so is
    [verifyConnection] then, with status and events untouched. *)
Theorem verifyConnection_settles c :
  exists out c',
    verifyConnection backend (E:=Thrown) c = (out, c') /\
    (out = Resolved tt \/ out = Unsettled) /\
    requests c' =
      (requests c ++ [{| endpoint := "/health"; method := "GET"; payload := None |}])%list /\
    seed c' = seed c /\ tokenAddresses c' = tokenAddresses c /\
    ((exists res,
        backend (requests c)
          {| endpoint := "/health"; method := "GET"; payload := None |} = Responded res /\
        success res) ->
     out = Resolved tt /\
     status c' = ClientStatus.ConnectionVerified /\
     emitted c' = (emitted c ++ ["connectionVerified"])%list) /\
    ((exists code msg,
        backend (requests c)
          {| endpoint := "/health"; method := "GET"; payload := None |} =
          RequestError code msg) \/
     (exists res,
        backend (requests c)
          {| endpoint := "/health"; method := "GET"; payload := None |} = Responded res /\
        ~ success res /\ ~ mute res) ->
     out = Resolved tt /\
     status c' = ClientStatus.Disconnected /\ emitted c' = emitted c) /\
    (silenced backend c {| endpoint := "/health"; method := "GET"; payload := None |} ->
     out = Unsettled /\ status c' = status c /\ emitted c' = emitted c).
Proof.
  pose proof (sendRequest_effect "/health" "GET" None c) as (Hreq & (Hs & Ht & He) & _ & Hst).
  cbv zeta in Hst.
  destruct (sendRequest "/health" "GET" None c) as [[r|err|] c1] eqn:Hr; cbn [snd] in *.
  - assert ((sendRequest "/health" "GET" None c).1 = Resolved r) as Hres by (by rewrite Hr).
    apply sendRequest_resolved in Hres as [Hb Hok].
    do 2 eexists. split; [apply (verifyConnection_verified c r Hb Hok)|].
    cbn. split; [by left|]. split; [done|]. split; [done|]. split; [done|].
    split; [done|]. split.
    + intros [(code & msg & Hb') | (res & Hb' & Hno & _)]; rewrite Hb in Hb'; [done|].
      injection Hb' as <-. done.
    + intros Hsil. apply sendRequest_unsettled in Hsil. by rewrite Hr in Hsil.
  - do 2 eexists. split; [apply (verifyConnection_failed c err c1 Hr)|].
    cbn. split; [by left|]. split; [done|]. split; [done|]. split; [done|].
    split; [|split; [done|]].
    + intros (res & Hb & Hok).
      assert ((sendRequest "/health" "GET" None c).1 = Resolved res) as Hres
        by (apply sendRequest_resolved; done).
      rewrite Hr in Hres. done.
    + intros Hsil. apply sendRequest_unsettled in Hsil. by rewrite Hr in Hsil.
  - assert ((sendRequest "/health" "GET" None c).1 = Unsettled) as Hres by (by rewrite Hr).
    apply sendRequest_unsettled in Hres.
    assert (forall msg,
              backend (requests c)
                {| endpoint := "/health"; method := "GET"; payload := None |} <>
              RequestError (Some "ECONNREFUSED") msg) as Hnot.
    { intros msg. destruct Hres as [-> | (res & -> & _)]; done. }
    do 2 eexists. split; [apply (verifyConnection_unsettled c c1 Hr)|].
    split; [by right|]. split; [done|]. split; [done|]. split; [done|].
    split; [|split].
    + intros (res' & Hb' & Hok).
      assert ((sendRequest "/health" "GET" None c).1 = Resolved res') as Hres'
        by (apply sendRequest_resolved; done).
      rewrite Hr in Hres'. done.
    + intros [(code & msg & Hb') | (res & Hb' & Hno & Hnm)].
      * destruct Hres as [Hb | (res & Hb & _)]; rewrite Hb in Hb'; done.
      * destruct Hres as [Hb | (res' & Hb & Hm)]; rewrite Hb in Hb'; [done|].
        injection Hb' as <-. done.
    + intros _. split; [done|]. split; [by apply Hst|done].
Qed.

(** With a seed, [initSpecific] goes on as the request to connect ends. *)
Lemma initSpecific_seeded c :
  Js.truthy (seed c) = true ->
  initSpecific c =
  match initConnextClient c with
  | (Resolved _, c1) =>
      verifyConnectionWithTimeout backend (E:=Thrown)
        (push_event "initialized" (set_status ClientStatus.Initialized c1))
  | (Rejected e, c1) => (Rejected (Raw e), c1)
  | (Unsettled, c1) => (Unsettled, c1)
  end.
Proof.
  intros Hseed. unfold initSpecific, bind, gets. rewrite Hseed. cbn [negb].
  unfold raw, try_catch. by destruct (initConnextClient c) as [[v|e|] c1].
Qed.

(** X5.  An empty seed counts as none: [initSpecific] throws its
    missing-credentials error.  With a seed, it first asks the node to
    connect.  When that request fails, what it rejected with is thrown as it
    is, nothing is emitted and the adapter is not set to [Initialized].
    When it succeeds with a JSON body, the adapter is set to [Initialized]
    and emits [initialized], and only then is the connection verified.  When
    it succeeds with a body that comes to nothing, as the empty body of a
    204 does, [initSpecific] is never settled and the adapter stays as the
    request left it: neither [Initialized] nor announced. *)
Theorem initSpecific_connects c :
  (seed c = Some "" -> initSpecific c = (Rejected MissingCredentials, c))
  /\
  (Js.truthy (seed c) = true ->
   (forall err c1,
      sendRequest "/connect" "POST" None c = (Rejected err, c1) ->
      initSpecific c = (Rejected (Raw err), c1) /\
      emitted c1 = emitted c /\
      (status c1 = status c \/ status c1 = ClientStatus.Disconnected))
   /\
   (forall res,
      backend (requests c)
        {| endpoint := "/connect"; method := "POST"; payload := None |} = Responded res ->
      success res ->
      (forall v, body res = Json v ->
       initSpecific c =
       verifyConnectionWithTimeout backend (E:=Thrown)
         (push_event "initialized"
            (set_status ClientStatus.Initialized
               (push_request
                  {| endpoint := "/connect"; method := "POST"; payload := None |} c))))
      /\
      (unparsed res ->
       initSpecific c =
       (Unsettled,
        push_request {| endpoint := "/connect"; method := "POST"; payload := None |} c))
      /\
      (forall code msg, body res = StreamError code msg ->
       initSpecific c =
       (Rejected (Raw (NodeError code msg)),
        push_request {| endpoint := "/connect"; method := "POST"; payload := None |} c)))).
Proof.
  split.
  { intros Hseed. unfold initSpecific, bind, gets. by rewrite Hseed. }
  intros Hseed. split.
  - intros err c1 Hr.
    pose proof (sendRequest_effect "/connect" "POST" None c) as (_ & (_ & _ & He) & _).
    pose proof (sendRequest_status "/connect" "POST" None c) as Hst.
    rewrite Hr in He, Hst. cbn [snd] in *.
    split; [|done].
    rewrite (initSpecific_seeded c Hseed). unfold initConnextClient, bind.
    by rewrite Hr.
  - intros res Hb Hok.
    assert (initConnextClient c =
            (parsed res,
             push_request {| endpoint := "/connect"; method := "POST"; payload := None |} c))
      as Hconnect.
    { unfold initConnextClient, bind.
      by rewrite (sendRequest_responded _ _ _ _ _ _ Hb), settle_success. }
    rewrite (initSpecific_seeded c Hseed), Hconnect. unfold parsed.
    split; [|split].
    + intros v ->. reflexivity.
    + intros [-> | ->]; reflexivity.
    + intros code msg ->. reflexivity.
Qed.

(** *** This node's leg of a deal *)

Lemma sendPayment_state deal c :
  (sendPayment deal c).2 = c \/ (sendPayment deal c).2 = (sendPaymentLeg deal c).2.
Proof.
  destruct (sendPayment_cases backend errorCodes errorMessages engineMessages deal c)
    as [-> | [Hs Hd]]; [by left|].
  right. rewrite sendPayment_active by done. apply try_catch_classify_state.
Qed.

(** X6.  Whatever the deal and the node, [sendPayment] issues at most one
    request, a POST to /hashlock-transfer or to /hashlock-resolve; it leaves
    the seed, the token addresses and the events alone, and the only status
    it may change to is [Disconnected]. *)
Theorem sendPayment_footprint deal c :
  let c' := (sendPayment deal c).2 in
  sameConfiguration c c' /\
  (status c' = status c \/ status c' = ClientStatus.Disconnected) /\
  (requests c' = requests c \/
   exists r, requests c' = (requests c ++ [r])%list /\ method r = "POST" /\
             (endpoint r = "/hashlock-transfer" \/ endpoint r = "/hashlock-resolve")).
Proof.
  cbv zeta. destruct (sendPayment_state deal c) as [-> | ->].
  { split; [done|]. split; by left. }
  rewrite sendPaymentLeg_state.
  pose proof (sendRequest_effect (endpoint (legRequest deal c))
                (method (legRequest deal c)) (payload (legRequest deal c)) c)
    as (Hreq & Hsame & _).
  split; [done|]. split; [apply sendRequest_status|]. right.
  exists (legRequest deal c). rewrite Hreq, legRequest_eta. split; [done|].
  unfold legRequest. destruct (_ && _); cbn; auto.
Qed.

(** *** How a failed leg is classified *)

(** An active deal whose leg is rejected. *)
Lemma sendPayment_leg_rejected deal c err c1 :
  state deal = SwapState.Active -> Js.truthy (destination deal) = true ->
  sendRequest (endpoint (legRequest deal c)) (method (legRequest deal c))
    (payload (legRequest deal c)) c = (Rejected err, c1) ->
  sendPayment deal c = caught err c1.
Proof.
  intros Hs Hd Hr. rewrite sendPayment_active by done.
  unfold try_catch. by rewrite (sendPaymentLeg_rejected _ deal c err c1 Hr).
Qed.

Lemma distinct_codes_final k :
  (forall k k', errorCodes k = errorCodes k' -> k = k') ->
  (forall k, errorCodes k <> "ECONNRESET") ->
  ~ In k [UNEXPECTED; TIMEOUT; SERVER_ERROR; INVALID_TOKEN_PAYMENT_RESPONSE] ->
  ~ unknownPaymentCode errorCodes (Js.Str (errorCodes k)).
Proof.
  intros Hinj Hreset Hk [[= H] | [[= H] | [[= H] | [[= H] | [= H]]]]].
  - by destruct (Hreset k).
  - apply Hinj in H. subst k. apply Hk. cbn. auto.
  - apply Hinj in H. subst k. apply Hk. cbn. auto.
  - apply Hinj in H. subst k. apply Hk. cbn. auto.
  - apply Hinj in H. subst k. apply Hk. cbn. auto.
Qed.

Lemma undefined_final : ~ unknownPaymentCode errorCodes Js.Undefined.
Proof. intros H. by repeat destruct H as [H | H]. Qed.

(** X7.  How the status code of the node's answer decides the fate of an
    active deal: 408, 500 and every unexpected code leave the payment in an
    unknown state; 402 fails it for good ([FINAL_PAYMENT_ERROR]) with the
    message of [INSUFFICIENT_BALANCE].  (For 402 the codes of the error
    table are taken to be distinct and not ECONNRESET.)  A 409 fails it for
    good, without any message, when the message of its body is a string,
    which is rejected bare and has neither code nor message; when the body
    has no message, or [null], the [catch] clause throws a [TypeError]
    instead; and when the body yields no message at all, [sendPayment] is
    never settled. *)
Theorem sendPayment_by_status_code deal c res :
  (forall k k', errorCodes k = errorCodes k' -> k = k') ->
  (forall k, errorCodes k <> "ECONNRESET") ->
  state deal = SwapState.Active -> Js.truthy (destination deal) = true ->
  backend (requests c) (legRequest deal c) = Responded res ->
  let ended out := sendPayment deal c = (out, push_request (legRequest deal c) c) in
  let failed kind msg := ended (Rejected (SwapError kind msg)) in
  (statusCode res = 402 ->
   failed FINAL_PAYMENT_ERROR (Js.Str (errorMessages INSUFFICIENT_BALANCE))) /\
  (statusCode res = 408 ->
   failed UNKNOWN_PAYMENT_ERROR (Js.Str (errorMessages TIMEOUT))) /\
  (statusCode res = 409 ->
   forall v message, body res = Json v -> Js.get v "message" = Some message ->
   ((exists s, message = Js.Str s) -> failed FINAL_PAYMENT_ERROR Js.Undefined) /\
   (message = Js.Undefined \/ message = Js.Null ->
    ended (Rejected (Raw (TypeError PropertyOfUndefined))))) /\
  (mute res -> ended Unsettled) /\
  (statusCode res = 500 ->
   failed UNKNOWN_PAYMENT_ERROR (Js.Str (errorMessages SERVER_ERROR))) /\
  (~ In (statusCode res) [200; 201; 204; 402; 408; 409; 500] ->
   failed UNKNOWN_PAYMENT_ERROR (Js.Str (errorMessages UNEXPECTED))).
Proof.
  intros Hinj Hreset Hs Hd Hb ended failed. subst failed ended. cbv beta.
  pose proof (sendRequest_leg_responded _ deal c res Hb) as Hr.
  assert (forall err, settle res = Rejected err ->
            sendPayment deal c = caught err (push_request (legRequest deal c) c))
    as Hfail.
  { intros err Herr. rewrite Herr in Hr. by apply sendPayment_leg_rejected. }
  split; [|split; [|split; [|split; [|split]]]].
  - intros Hc. rewrite (Hfail (ConnextError INSUFFICIENT_BALANCE))
      by (unfold settle; by rewrite Hc).
    apply (classify_final _ _ _ _ _ (Js.Str (errorCodes INSUFFICIENT_BALANCE)));
      [done|done|].
    apply distinct_codes_final; try done.
    cbn. intros H. by repeat destruct H as [H | H].
  - intros Hc. rewrite (Hfail (ConnextError TIMEOUT))
      by (unfold settle; by rewrite Hc).
    apply (classify_unknown _ _ _ _ _ (Js.Str (errorCodes TIMEOUT))); [done|done|].
    unfold unknownPaymentCode. auto.
  - intros Hc v message Hv Hm.
    rewrite (Hfail (RejectedValue message))
      by (by rewrite (settle_conflict res Hc), Hv, Hm).
    split.
    + intros [s ->]. apply (classify_final _ _ _ _ _ Js.Undefined); [done|done|].
      apply undefined_final.
    + intros Hp. apply classify_propertyless. destruct Hp as [-> | ->]; [by left|by right].
  - intros Hm. apply settle_mute in Hm. rewrite Hm in Hr.
    rewrite sendPayment_active by done. unfold try_catch.
    by rewrite (sendPaymentLeg_unsettled _ deal c _ Hr).
  - intros Hc. rewrite (Hfail (ConnextError SERVER_ERROR))
      by (unfold settle; by rewrite Hc).
    apply (classify_unknown _ _ _ _ _ (Js.Str (errorCodes SERVER_ERROR))); [done|done|].
    unfold unknownPaymentCode. auto 6.
  - intros Hc. rewrite (Hfail (ConnextError UNEXPECTED)).
    + apply (classify_unknown _ _ _ _ _ (Js.Str (errorCodes UNEXPECTED))); [done|done|].
      unfold unknownPaymentCode. auto.
    + unfold settle. cbn in Hc.
      repeat
        (match goal with
         | |- context [(?a =? ?b)%Z] =>
             destruct (Z.eqb_spec a b); [exfalso; apply Hc; lia|]
         end); done.
Qed.

(** X8.  How a failure of the connection decides the fate of an active
    deal: a reset connection leaves the payment in an unknown state; a
    refused connection fails it for good and marks the adapter disconnected
    (no code of the error table being ECONNREFUSED); so does an error
    without code, short of disconnecting. *)
Theorem sendPayment_by_connection_error deal c code msg :
  state deal = SwapState.Active -> Js.truthy (destination deal) = true ->
  backend (requests c) (legRequest deal c) = RequestError code msg ->
  (code = Some "ECONNRESET" ->
   sendPayment deal c =
   (Rejected (SwapError UNKNOWN_PAYMENT_ERROR (Js.Str msg)),
    push_request (legRequest deal c) c))
  /\
  (code = Some "ECONNREFUSED" ->
   (forall k, errorCodes k <> "ECONNREFUSED") ->
   sendPayment deal c =
   (Rejected (SwapError FINAL_PAYMENT_ERROR (Js.Str msg)),
    set_status ClientStatus.Disconnected (push_request (legRequest deal c) c)))
  /\
  (code = None ->
   sendPayment deal c =
   (Rejected (SwapError FINAL_PAYMENT_ERROR (Js.Str msg)),
    push_request (legRequest deal c) c)).
Proof.
  intros Hs Hd Hb.
  pose proof (sendRequest_leg_failed _ deal c code msg Hb) as Hr.
  rewrite (sendPayment_leg_rejected deal c _ _ Hs Hd Hr).
  split; [|split].
  - intros ->. rewrite bool_decide_eq_false_2 by done.
    apply (classify_unknown _ _ _ _ _ (Js.Str "ECONNRESET")); [done|done|]. by left.
  - intros -> Hno. rewrite bool_decide_eq_true_2 by done.
    apply (classify_final _ _ _ _ _ (Js.Str "ECONNREFUSED")); [done|done|].
    unfold unknownPaymentCode.
    intros [[=] | [[= H] | [[= H] | [[= H] | [= H]]]]]; by eapply Hno.
  - intros ->. rewrite bool_decide_eq_false_2 by done.
    apply (classify_final _ _ _ _ _ Js.Undefined); [done|done|].
    apply undefined_final.
Qed.

Lemma slice_0x rest : Js.slice ("0x" +:+ rest) 2 = rest.
Proof. reflexivity. Qed.

Lemma append_0x_inj a b : "0x" +:+ a = "0x" +:+ b -> a = b.
Proof. intros H. cbn in H. by injection H. Qed.

(** The transfer resolves with what follows the 0x of the string under
    [preImage], and only with that. *)
Lemma executeHashLockTransfer_resolves p c res secret :
  backend (requests c) (transferRequest p) = Responded res -> success res ->
  (executeHashLockTransfer p c).1 = Resolved secret <->
  preImage res = Some ("0x" +:+ secret).
Proof.
  intros Hb Hok. rewrite (executeHashLockTransfer_responded _ p c res Hb Hok).
  cbn [fst]. unfold preImage.
  destruct (body res) as [v| |code msg|]; [|done|done|done].
  destruct (Js.get v "preImage") as [[| |b|x|s|items|props]|]; try done;
    try (split; [|done]; by destruct (Js.toBoolean _)).
  destruct (Js.startsWith s "0x") eqn:Hp.
  - apply startsWith_0x in Hp as [rest ->].
    assert (Js.toBoolean (Js.Str ("0x" +:+ rest)) = true) as -> by done.
    rewrite slice_0x. split; [by intros [= ->]|].
    intros H. by rewrite (append_0x_inj rest secret (f_equal (default "") H)).
  - split; [by destruct (Js.toBoolean _)|].
    intros [= ->]. rewrite (proj2 (startsWith_0x _)) in Hp; [done|by eexists].
Qed.

(** X9.  [sendPayment] resolves on exactly one condition: the deal is
    active and has a destination, the node answers the request of the leg
    with a success status, and the preimage of the leg (the maker's own, or
    the one in the answer to a transfer) begins with 0x.  What it resolves
    with is that preimage without the 0x. *)
Theorem sendPayment_resolves_iff deal c secret :
  (sendPayment deal c).1 = Resolved secret <->
  state deal = SwapState.Active /\ Js.truthy (destination deal) = true /\
  exists res,
    backend (requests c) (legRequest deal c) = Responded res /\ success res /\
    legPreimage deal res = Some ("0x" +:+ secret).
Proof.
  assert (forall res,
            backend (requests c) (legRequest deal c) = Responded res -> success res ->
            (sendPaymentLeg deal c).1 = Resolved secret <->
            legPreimage deal res = Some ("0x" +:+ secret)) as Hleg.
  { intros res Hb Hok. rewrite (sendPaymentLeg_responded _ deal c res Hb Hok).
    cbn [fst]. unfold legPreimage. unfold legRequest in Hb.
    destruct (bool_decide (role deal = SwapRole.Maker) && Js.truthy (rPreimage deal))
      eqn:Hbranch.
    - apply andb_true_iff in Hbranch as [_ Htruthy].
      destruct (rPreimage deal) as [pre|]; [|done].
      cbn [default from_option Datatypes.id].
      destruct (Js.startsWith pre "0x") eqn:Hp.
      + apply startsWith_0x in Hp as [rest ->]. rewrite slice_0x.
        split; [by intros [= ->]|].
        intros H. by rewrite (append_0x_inj rest secret (f_equal (default "") H)).
      + split; [done|]. intros [= ->].
        rewrite (proj2 (startsWith_0x _)) in Hp; [done|by eexists].
    - by apply executeHashLockTransfer_resolves. }
  split.
  - intros Hres.
    destruct (sendPayment_cases backend errorCodes errorMessages engineMessages deal c)
      as [Hidle | [Hs Hd]]; [by rewrite Hidle in Hres|].
    split; [done|]. split; [done|].
    rewrite sendPayment_active in Hres by done. unfold try_catch in Hres.
    destruct (sendPaymentLeg deal c) as [[a|e|] c1] eqn:Hrun; cbn [fst] in Hres.
    + injection Hres as ->.
      destruct (backend (requests c) (legRequest deal c)) as [res|code msg|] eqn:Hb.
      * exists res. split; [done|].
        pose proof (sendRequest_leg_responded backend deal c res Hb) as Hr.
        destruct (settle_cases res) as [[Hok _] | [[_ Hu] | (_ & _ & err & He)]].
        -- split; [done|]. by apply (Hleg res eq_refl Hok).
        -- rewrite Hu in Hr.
           rewrite (sendPaymentLeg_unsettled _ deal c _ Hr) in Hrun. done.
        -- rewrite He in Hr.
           rewrite (sendPaymentLeg_rejected _ deal c _ _ Hr) in Hrun. done.
      * pose proof (sendRequest_leg_failed backend deal c code msg Hb) as Hr.
        rewrite (sendPaymentLeg_rejected _ deal c _ _ Hr) in Hrun. done.
      * pose proof (sendRequest_leg_silent backend deal c Hb) as Hr.
        rewrite (sendPaymentLeg_unsettled _ deal c _ Hr) in Hrun. done.
    + exfalso.
      destruct (classify_throws errorCodes errorMessages engineMessages e c1)
        as [(kind & message & Hk) | [_ Hk]]; by rewrite Hk in Hres.
    + done.
  - intros (Hs & Hd & res & Hb & Hok & Hpre).
    rewrite sendPayment_active by done. unfold try_catch.
    apply (Hleg res Hb Hok) in Hpre.
    destruct (sendPaymentLeg deal c) as [[a|e|] c1]; cbn [fst] in Hpre; try done.
    by injection Hpre as ->.
Qed.

(** X10.  A maker whose preimage lacks the 0x prefix has the node resolve the
    transfer all the same: the request is issued before the preimage is
    checked, and when the node has accepted it [sendPayment] still throws,
    with an [UNKNOWN_PAYMENT_ERROR]. *)
Theorem sendPayment_maker_unprefixed deal c pre res :
  state deal = SwapState.Active -> Js.truthy (destination deal) = true ->
  role deal = SwapRole.Maker -> rPreimage deal = Some pre -> pre <> "" ->
  (forall rest, pre <> "0x" +:+ rest) ->
  backend (requests c) (resolveRequest pre) = Responded res -> success res ->
  sendPayment deal c =
  (Rejected (SwapError UNKNOWN_PAYMENT_ERROR
               (Js.Str (errorMessages INVALID_TOKEN_PAYMENT_RESPONSE))),
   push_request (resolveRequest pre) c).
Proof.
  intros Hs Hd Hrole Hpre Hne Hno Hb Hok.
  assert (Js.truthy (Some pre) = true) as Ht.
  { cbn. by destruct (String.eqb_spec pre ""). }
  assert (legRequest deal c = resolveRequest pre) as Hreq.
  { unfold legRequest. by rewrite Hrole, Hpre, Ht. }
  rewrite <- Hreq in Hb |- *.
  rewrite sendPayment_active by done. unfold try_catch.
  rewrite (sendPaymentLeg_responded _ deal c res Hb Hok).
  rewrite Hrole, Hpre, Ht. cbn [default from_option Datatypes.id].
  rewrite bool_decide_eq_true_2 by done. cbn [andb].
  rewrite (startsWith_no_0x pre Hno).
  apply (classify_unknown _ _ _ _ _
           (Js.Str (errorCodes INVALID_TOKEN_PAYMENT_RESPONSE))); [done|done|].
  unfold unknownPaymentCode. auto 6.
Qed.

(** X18.  [sendPayment] does not ask whether the currency it pays in has a
    token address, as [sendSmallestAmount] does: on an active deal that it
    settles by a transfer, with no token address for the maker currency, the
    transfer is requested all the same, with an undefined asset id. *)
Theorem sendPayment_without_token_address deal c :
  state deal = SwapState.Active -> Js.truthy (destination deal) = true ->
  role deal = SwapRole.Taker \/ Js.truthy (rPreimage deal) = false ->
  tokenAddresses c !! makerCurrency deal = None ->
  let p := {| amount := Js.numberToString (makerUnits deal); assetId := None;
              lockHash := rHash deal; timelock := makerCltvDelta deal |} in
  requests (sendPayment deal c).2 = (requests c ++ [transferRequest p])%list /\
  In ("assetId", JUndefined) (payloadFields (TransferPayload p)) /\
  (sendSmallestAmount (rHash deal) (default "" (destination deal))
     (makerCurrency deal) c =
   (Rejected (ConnextError TOKEN_ADDRESS_NOT_FOUND), c)).
Proof.
  intros Hs Hd Hbranch Htok p.
  split; [|split].
  - rewrite sendPayment_active by done.
    rewrite try_catch_classify_state, (sendPaymentLeg_taker _ deal c) by done.
    rewrite Htok. apply executeHashLockTransfer_requests.
  - cbn. auto.
  - unfold sendSmallestAmount, bind.
    rewrite getTokenAddress_missing by (by left). done.
Qed.

(** *** Looking up a payment, and the balance *)

Lemma getHashLockStatus_state rHash c :
  (getHashLockStatus rHash c).2 =
  (sendRequest ("/hashlock-status/" +:+ rHash) "GET" None c).2.
Proof.
  unfold getHashLockStatus, bind, parseResponseBody, lift, destructure.
  destruct (sendRequest _ _ _ _) as [[r|e|] c1]; try done.
  destruct (parsed r); try done. by destruct (Js.get _ _).
Qed.

Lemma lookupPayment_state rHash c :
  (lookupPayment rHash c).2 = (getHashLockStatus rHash c).2.
Proof.
  unfold lookupPayment, try_catch, bind.
  destruct (getHashLockStatus _ _) as [[st|e|] c1]; try done.
  cbn [snd]. unfold ret. cases.
Qed.

(** X11.  [lookupPayment] is a query: it issues the one request
    GET /hashlock-status/<hash>, without payload, and leaves the seed, the
    token addresses and the events alone; its outcome is decided by the
    node's answer to that request, whatever the status of the adapter. *)
Theorem lookupPayment_query rHash c :
  let req := {| endpoint := "/hashlock-status/" +:+ rHash; method := "GET";
                payload := None |} in
  requests (lookupPayment rHash c).2 = (requests c ++ [req])%list /\
  sameConfiguration c (lookupPayment rHash c).2 /\
  (status (lookupPayment rHash c).2 = status c \/
   status (lookupPayment rHash c).2 = ClientStatus.Disconnected) /\
  (forall c', backend (requests c') req = backend (requests c) req ->
              (lookupPayment rHash c').1 = (lookupPayment rHash c).1).
Proof.
  cbv zeta. rewrite lookupPayment_state, getHashLockStatus_state.
  pose proof (sendRequest_effect ("/hashlock-status/" +:+ rHash) "GET" None c)
    as (Hreq & Hsame & _).
  split; [done|]. split; [done|]. split; [apply sendRequest_status|].
  intros c' Hb.
  unfold lookupPayment, try_catch, getHashLockStatus, bind,
    sendRequest, parseResponseBody, lift, destructure.
  rewrite Hb. destruct (backend (requests c) _) as [res|code msg|]; [|done|done].
  destruct (settle res); try done.
  destruct (parsed _); try done. destruct (Js.get _ _); try done.
  unfold ret. cbn. cases.
Qed.

(** X12.  [channelBalance] of a currency without token address rejects with
    [TOKEN_ADDRESS_NOT_FOUND] before any request.  With a token address it
    asks the node for the balance of that address, once.  On a success
    status with a JSON body it reports the converted free balance both as
    the balance and as the pending open balance; on one with a body that
    comes to nothing, as one that is no JSON, it is never settled.  Whatever it is called with, a balance it
    resolves with has no inactive part, and its balance is its pending open
    balance. *)
Theorem channelBalance_of_currency currency c :
  currency <> "" ->
  (tokenAddresses c !! currency = None \/ tokenAddresses c !! currency = Some "" ->
   channelBalance (Some currency) c =
     (Rejected (Raw (ConnextError TOKEN_ADDRESS_NOT_FOUND)), c))
  /\
  (forall t res,
     tokenAddresses c !! currency = Some t -> t <> "" ->
     let req := {| endpoint := "/balance/" +:+ t; method := "GET"; payload := None |} in
     backend (requests c) req = Responded res -> success res ->
     (forall v free a,
        body res = Json v -> Js.get v "freeBalance" = Some free ->
        unitsToAmount currency free = Resolved a ->
        channelBalance (Some currency) c =
          (Resolved {| balance := a; pendingOpenBalance := a; inactiveBalance := 0 |},
           push_request req c))
     /\
     (unparsed res ->
      channelBalance (Some currency) c = (Unsettled, push_request req c)))
  /\
  (forall argument b,
     (channelBalance argument c).1 = Resolved b ->
     inactiveBalance b = 0 /\ balance b = pendingOpenBalance b).
Proof.
  intros Hne.
  assert (Js.truthy (Some currency) = true) as Ht.
  { cbn. by destruct (String.eqb_spec currency ""). }
  split; [|split].
  - intros H. unfold channelBalance. rewrite Ht. cbn [negb].
    cbv beta iota zeta. change (default "" (Some currency)) with currency.
    unfold bind, raw, try_catch. by rewrite getTokenAddress_missing.
  - intros t res Htok Htne req Hb Hok.
    assert (channelBalance (Some currency) c =
            bind (raw (parseResponseBody res))
              (fun b =>
                 bind (raw (destructure b "freeBalance"))
                   (fun freeBalance =>
                      bind (lift (unitsToAmount currency freeBalance))
                        (fun pendingOpenBalance =>
                           ret {| balance := pendingOpenBalance + 0;
                                  pendingOpenBalance := pendingOpenBalance;
                                  inactiveBalance := 0 |})))
              (push_request req c)) as ->.
    { unfold channelBalance. rewrite Ht. cbn [negb].
      cbv beta iota zeta. change (default "" (Some currency)) with currency.
      unfold bind at 1, raw at 1, try_catch at 1.
      rewrite (getTokenAddress_found currency c t) by done.
      unfold bind at 1, raw at 1, try_catch at 1.
      subst req. by rewrite (sendRequest_responded _ _ _ _ _ _ Hb), settle_success. }
    unfold bind, raw, try_catch, parseResponseBody, lift, parsed, destructure.
    split.
    + intros v free a -> Hfree Ha. rewrite Hfree. cbn. rewrite Ha.
      unfold ret. by rewrite Z.add_0_r.
    + by intros [-> | ->].
  - intros argument b. unfold channelBalance.
    destruct (negb (Js.truthy argument)); [by intros [= <-]|].
    unfold bind, raw, try_catch, parseResponseBody, lift, destructure.
    destruct (getTokenAddress _ c) as [[t|e|] c1]; try done.
    destruct (sendRequest _ _ _ _) as [[res|e|] c2]; try done.
    destruct (parsed res) as [v|e|]; try done.
    destruct (Js.get v "freeBalance") as [free|]; try done. cbn.
    destruct (unitsToAmount _ _) as [a|e|]; try done.
    intros [= <-]. cbn. split; [done|]. apply Z.add_0_r.
Qed.

End ConnextClientMore.

(** ** The adapter's report on itself *)

Section ConnextInfoFacts.

Variable backend : list Request -> Request -> HttpOutcome.
Variable errorMessages : ConnextErrorKind -> string.
Variable engineMessages : TypeErrorSite -> string.
Variable isDisabled : bool.
Variable thisAddress : option string.
Variable noActiveChannels : string.

Local Abbreviation getConnextInfo :=
  (getConnextInfo backend errorMessages engineMessages isDisabled thisAddress
     noActiveChannels).
Local Abbreviation getChannel := (getChannel backend).
Local Abbreviation errMessage := (errMessage errorMessages engineMessages).

(** The query behind the report on an answer with a success status. *)
Lemma getChannel_responded c res :
  backend (requests c) {| endpoint := "/config"; method := "GET"; payload := None |} =
    Responded res ->
  getChannel c =
  (match settle res with
   | Resolved r => parsed r
   | Rejected e => Rejected e
   | Unsettled => Unsettled
   end,
   push_request {| endpoint := "/config"; method := "GET"; payload := None |} c).
Proof.
  intros Hb. unfold getChannel, bind, parseResponseBody, lift.
  rewrite (sendRequest_responded _ _ _ _ _ _ Hb). by destruct (settle res).
Qed.

(** An enabled adapter reports as its query for the channel ends. *)
Lemma getConnextInfo_enabled c :
  isDisabled = false ->
  getConnextInfo c =
  (match (getChannel c).1 with
   | Resolved _ =>
       Resolved {| ConnextInfo.chain := "connext"; ConnextInfo.status := Js.Str "Ready";
                   ConnextInfo.channels := Some {| active := 1; settled := 0; closed := 0 |};
                   ConnextInfo.address := thisAddress; ConnextInfo.version := None |}
   | Rejected err =>
       match errMessage err with
       | Some message =>
           Resolved {| ConnextInfo.chain := "connext"; ConnextInfo.status := message;
                       ConnextInfo.channels := None; ConnextInfo.address := None;
                       ConnextInfo.version := None |}
       | None => Rejected (Raw (TypeError PropertyOfUndefined))
       end
   | Unsettled => Unsettled
   end,
   (getChannel c).2).
Proof.
  intros Hd. unfold getConnextInfo, bind, gets, objectKeysOfMap. cbn [find].
  rewrite Hd. unfold getVersion, ret, try_catch, getChannels, bind.
  destruct (getChannel c) as [[v|err|] c1]; cbn; try done.
  by destruct (errMessage err).
Qed.

Lemma getChannel_requests c :
  requests (getChannel c).2 =
  (requests c ++ [{| endpoint := "/config"; method := "GET"; payload := None |}])%list.
Proof.
  unfold getChannel, bind, parseResponseBody, lift.
  pose proof (sendRequest_requests backend "/config" "GET" None c) as H.
  by destruct (sendRequest backend "/config" "GET" None c) as [[r|e|] c1].
Qed.

(** X13.  The chain that [getConnextInfo] reports is always [connext],
    since the keys of the token address map are sought where a [Map] has
    none, and it never reports a version.  A disabled adapter reports the
    message of [CONNEXT_IS_DISABLED] and asks the node nothing.  Otherwise
    the adapter asks for /config: on a success with a JSON body it reports
    [Ready] with one active channel and its address, never the lack of
    active channels; on a failure it reports the message of what was thrown,
    and neither channels nor address.  It throws in one case only, with a
    [TypeError]: when what was thrown is [undefined] or [null], as after a
    409 whose body has no message.  And it is never settled when the body of
    a success comes to nothing, as one that is no JSON. *)
Theorem getConnextInfo_reports c :
  (forall info, (getConnextInfo c).1 = Resolved info ->
   ConnextInfo.chain info = "connext" /\ ConnextInfo.version info = None)
  /\
  (forall e, (getConnextInfo c).1 = Rejected e -> e = Raw (TypeError PropertyOfUndefined))
  /\
  (isDisabled = true ->
   getConnextInfo c =
   (Resolved {| ConnextInfo.chain := "connext";
                ConnextInfo.status := Js.Str (errorMessages CONNEXT_IS_DISABLED);
                ConnextInfo.channels := None; ConnextInfo.address := None;
                ConnextInfo.version := None |}, c))
  /\
  (isDisabled = false ->
   requests (getConnextInfo c).2 =
     (requests c ++ [{| endpoint := "/config"; method := "GET"; payload := None |}])%list /\
   (forall err message,
      (getChannel c).1 = Rejected err -> errMessage err = Some message ->
      (getConnextInfo c).1 =
      Resolved {| ConnextInfo.chain := "connext"; ConnextInfo.status := message;
                  ConnextInfo.channels := None; ConnextInfo.address := None;
                  ConnextInfo.version := None |}) /\
   (forall res,
      backend (requests c)
        {| endpoint := "/config"; method := "GET"; payload := None |} = Responded res ->
      (success res -> forall v, body res = Json v ->
       (getConnextInfo c).1 =
       Resolved {| ConnextInfo.chain := "connext"; ConnextInfo.status := Js.Str "Ready";
                   ConnextInfo.channels := Some {| active := 1; settled := 0; closed := 0 |};
                   ConnextInfo.address := thisAddress; ConnextInfo.version := None |}) /\
      (success res -> unparsed res -> (getConnextInfo c).1 = Unsettled) /\
      (statusCode res = 409 ->
       forall v message, body res = Json v -> Js.get v "message" = Some message ->
       message = Js.Undefined \/ message = Js.Null ->
       (getConnextInfo c).1 = Rejected (Raw (TypeError PropertyOfUndefined))))).
Proof.
  assert (isDisabled = true \/ isDisabled = false) as Hcases
    by (destruct isDisabled; auto).
  split; [|split; [|split]].
  - intros info. destruct Hcases as [Hd | Hd].
    + unfold getConnextInfo, bind, gets, objectKeysOfMap. cbn [find].
      rewrite Hd. by intros [= <-].
    + rewrite (getConnextInfo_enabled c Hd). cbn [fst].
      destruct (getChannel c).1 as [v|err|]; [by intros [= <-]| |done].
      destruct (errMessage err); [by intros [= <-]|done].
  - intros e. destruct Hcases as [Hd | Hd].
    + unfold getConnextInfo, bind, gets, objectKeysOfMap. cbn [find].
      by rewrite Hd.
    + rewrite (getConnextInfo_enabled c Hd). cbn [fst].
      destruct (getChannel c).1 as [v|err|]; [done| |done].
      destruct (errMessage err); [done|by intros [= <-]].
  - intros Hd. unfold getConnextInfo, bind, gets, objectKeysOfMap. cbn [find].
    by rewrite Hd.
  - intros Hd. rewrite (getConnextInfo_enabled c Hd). cbn [fst snd].
    split; [apply getChannel_requests|]. split.
    + intros err message -> ->. done.
    + intros res Hb. rewrite (getChannel_responded c res Hb). cbn [fst].
      split; [|split].
      * intros Hok v Hv. rewrite settle_success by done. unfold parsed. by rewrite Hv.
      * intros Hok Hv. rewrite settle_success by done. unfold parsed.
        by destruct Hv as [-> | ->].
      * intros Hc v message Hv Hm Hp. rewrite (settle_conflict res Hc), Hv, Hm.
        by destruct Hp as [-> | ->].
Qed.

End ConnextInfoFacts.

(** ** The properties on a concrete node *)

Section OnMoreSamples.

Import Sample MoreSamples.

Lemma newClient_tokenAddresses_witness :
  currencies = ([{| id := "ETH"; tokenAddress := Some "0xe7e";
                    swapClient := SwapClientType.Connext |}] ++ dai ::
                [{| id := "BTC"; tokenAddress := None;
                    swapClient := SwapClientType.Lnd |}])%list /\
  registers dai "DAI" "0xda1" /\
  tokenAddresses (newClient currencies) !! "DAI" = Some "0xda1".
Proof.
  assert (registers dai "DAI" "0xda1") as Hreg
    by (repeat split; discriminate).
  split; [reflexivity|]. split; [exact Hreg|].
  refine (proj2 (proj2 (newClient_tokenAddresses currencies "DAI"))
            [{| id := "ETH"; tokenAddress := Some "0xe7e";
                swapClient := SwapClientType.Connext |}]
            dai
            [{| id := "BTC"; tokenAddress := None; swapClient := SwapClientType.Lnd |}]
            "0xda1" eq_refl Hreg _).
  intros later t' [<- | []] (_ & Ht & _). discriminate Ht.
Defined.

Lemma getTokenAddress_newClient_witness :
  tokenAddresses client = tokenAddresses (newClient currencies) /\
  (forall currency t, In currency currencies -> ~ registers currency "BTC" t) /\
  (getTokenAddress "BTC" client).1 = Rejected (ConnextError TOKEN_ADDRESS_NOT_FOUND).
Proof.
  assert (forall currency t, In currency currencies -> ~ registers currency "BTC" t)
    as Hno.
  { intros currency t [<- | [<- | [<- | []]]] (Hid & Ht & _);
      (discriminate Hid || discriminate Ht). }
  split; [reflexivity|]. split; [exact Hno|].
  exact (proj2 (proj2 (getTokenAddress_newClient currencies client "BTC" eq_refl)) Hno).
Defined.

Lemma sendSmallestAmount_transfer_witness :
  tokenAddresses client !! "DAI" = Some "0xda1" /\
  "0xda1" <> "" /\
  requests (sendSmallestAmount accepting "c0ffee" "0xpeer" "DAI" client).2 =
    (requests client ++
     [transferRequest {| amount := "1"; assetId := Some "0xda1"; lockHash := "c0ffee";
                         timelock := Some 100 |}])%list.
Proof.
  assert ("0xda1" <> "") as Hne by discriminate.
  split; [reflexivity|]. split; [exact Hne|].
  exact (proj2 (proj1 (proj2 (sendSmallestAmount_transfer accepting "c0ffee" "0xpeer"
                                "DAI" client)) "0xda1" eq_refl Hne)).
Defined.

Lemma verifyConnection_settles_witness :
  (exists res, accepting (requests client) health = Responded res /\ success res) /\
  status (verifyConnection accepting (E:=Thrown) client).2 =
    ClientStatus.ConnectionVerified /\
  silenced (always (Responded (empty 409))) client health /\
  (verifyConnection (always (Responded (empty 409))) (E:=Thrown) client).1 = Unsettled.
Proof.
  assert (exists res, accepting (requests client) health = Responded res /\ success res)
    as H by (eexists; split; [reflexivity|left; reflexivity]).
  assert (silenced (always (Responded (empty 409))) client health) as H'.
  { right. eexists. split; [reflexivity|]. split; [reflexivity|].
    intros v Hv. discriminate Hv. }
  split; [exact H|]. split; [|split; [exact H'|]].
  - destruct (verifyConnection_settles accepting client)
      as (out & c' & Heq & _ & _ & _ & _ & Hok & _).
    rewrite Heq. exact (proj1 (proj2 (Hok H))).
  - destruct (verifyConnection_settles (always (Responded (empty 409))) client)
      as (out & c' & Heq & _ & _ & _ & _ & _ & _ & Hmute).
    rewrite Heq. exact (proj1 (Hmute H')).
Defined.

Lemma initSpecific_connects_witness :
  Js.truthy (seed seeded) = true /\
  accepting (requests seeded) connect = Responded (reply 200 (Some "0xdead") "PENDING") /\
  success (reply 200 (Some "0xdead") "PENDING") /\
  (exists v, body (reply 200 (Some "0xdead") "PENDING") = Json v) /\
  initSpecific accepting seeded =
    verifyConnectionWithTimeout accepting (E:=Thrown)
      (push_event "initialized"
         (set_status ClientStatus.Initialized (push_request connect seeded))) /\
  silent (requests seeded) connect = Responded (empty 204) /\
  success (empty 204) /\
  unparsed (empty 204) /\
  initSpecific silent seeded = (Unsettled, push_request connect seeded).
Proof.
  assert (success (reply 200 (Some "0xdead") "PENDING")) as Hok by (left; reflexivity).
  assert (success (empty 204)) as Hok' by (right; right; reflexivity).
  split; [reflexivity|]. split; [reflexivity|]. split; [exact Hok|].
  split; [eexists; reflexivity|]. split.
  - exact (proj1 (proj2 (proj2 (initSpecific_connects accepting seeded) eq_refl)
                    _ eq_refl Hok) _ eq_refl).
  - split; [reflexivity|]. split; [exact Hok'|]. split; [left; reflexivity|].
    exact (proj1 (proj2 (proj2 (proj2 (initSpecific_connects silent seeded) eq_refl)
                           _ eq_refl Hok')) (or_introl eq_refl)).
Defined.

Lemma sendPayment_by_status_code_witness :
  (forall k k', codes k = codes k' -> k = k') /\
  (forall k, codes k <> "ECONNRESET") /\
  state takerDeal = SwapState.Active /\
  Js.truthy (destination takerDeal) = true /\
  short (requests client) (legRequest takerDeal client) = Responded (reply 402 None "") /\
  sendPayment short codes messages engine takerDeal client =
    (Rejected (SwapError FINAL_PAYMENT_ERROR (Js.Str "insufficient balance")),
     push_request (legRequest takerDeal client) client) /\
  conflicting (requests client) (legRequest takerDeal client) =
    Responded {| statusCode := 409; statusMessage := "Conflict";
                 body := Json (Js.Obj []) |} /\
  Js.get (Js.Obj []) "message" = Some Js.Undefined /\
  sendPayment conflicting codes messages engine takerDeal client =
    (Rejected (Raw (TypeError PropertyOfUndefined)),
     push_request (legRequest takerDeal client) client).
Proof.
  assert (forall k k', codes k = codes k' -> k = k') as Hinj
    by (intros k k' H; destruct k, k'; (reflexivity || discriminate H)).
  assert (forall k, codes k <> "ECONNRESET") as Hreset
    by (intros k; destruct k; discriminate).
  split; [exact Hinj|]. split; [exact Hreset|].
  do 3 (split; [reflexivity|]). split.
  - exact (proj1 (sendPayment_by_status_code short codes messages engine takerDeal
                    client _ Hinj Hreset eq_refl eq_refl eq_refl) eq_refl).
  - do 2 (split; [reflexivity|]).
    destruct (sendPayment_by_status_code conflicting codes messages engine takerDeal
                client _ Hinj Hreset eq_refl eq_refl eq_refl)
      as (_ & _ & Hconflict & _).
    exact (proj2 (Hconflict eq_refl _ _ eq_refl eq_refl) (or_introl eq_refl)).
Defined.

Lemma sendPayment_by_connection_error_witness :
  state takerDeal = SwapState.Active /\
  Js.truthy (destination takerDeal) = true /\
  refusing (requests client) (legRequest takerDeal client) =
    RequestError (Some "ECONNREFUSED") "connect ECONNREFUSED" /\
  (forall k, codes k <> "ECONNREFUSED") /\
  sendPayment refusing codes messages engine takerDeal client =
    (Rejected (SwapError FINAL_PAYMENT_ERROR (Js.Str "connect ECONNREFUSED")),
     set_status ClientStatus.Disconnected
       (push_request (legRequest takerDeal client) client)).
Proof.
  assert (forall k, codes k <> "ECONNREFUSED") as Hno
    by (intros k; destruct k; discriminate).
  repeat (split; [reflexivity|]). split; [exact Hno|].
  exact (proj1 (proj2 (sendPayment_by_connection_error refusing codes messages engine
                         takerDeal client _ _ eq_refl eq_refl eq_refl))
           eq_refl Hno).
Defined.

Lemma sendPayment_resolves_iff_witness :
  state takerDeal = SwapState.Active /\
  Js.truthy (destination takerDeal) = true /\
  accepting (requests client) (legRequest takerDeal client) =
    Responded (reply 200 (Some "0xdead") "PENDING") /\
  success (reply 200 (Some "0xdead") "PENDING") /\
  legPreimage takerDeal (reply 200 (Some "0xdead") "PENDING") = Some ("0x" +:+ "dead") /\
  (sendPayment accepting codes messages engine takerDeal client).1 = Resolved "dead".
Proof.
  assert (success (reply 200 (Some "0xdead") "PENDING")) as Hok by (left; reflexivity).
  repeat (split; [reflexivity|]). split; [exact Hok|]. split; [reflexivity|].
  apply (proj2 (sendPayment_resolves_iff accepting codes messages engine takerDeal
                  client "dead")).
  split; [reflexivity|]. split; [reflexivity|].
  exists (reply 200 (Some "0xdead") "PENDING").
  split; [reflexivity|]. split; [exact Hok|reflexivity].
Defined.

Lemma sendPayment_maker_unprefixed_witness :
  state unprefixedDeal = SwapState.Active /\
  Js.truthy (destination unprefixedDeal) = true /\
  role unprefixedDeal = SwapRole.Maker /\
  rPreimage unprefixedDeal = Some "abc" /\
  "abc" <> "" /\
  (forall rest, "abc" <> "0x" +:+ rest) /\
  accepting (requests client) (resolveRequest "abc") =
    Responded (reply 200 (Some "0xdead") "PENDING") /\
  success (reply 200 (Some "0xdead") "PENDING") /\
  sendPayment accepting codes messages engine unprefixedDeal client =
    (Rejected (SwapError UNKNOWN_PAYMENT_ERROR (Js.Str "invalid token payment response")),
     push_request (resolveRequest "abc") client).
Proof.
  assert (success (reply 200 (Some "0xdead") "PENDING")) as Hok by (left; reflexivity).
  assert ("abc" <> "") as Hne by discriminate.
  assert (forall rest, "abc" <> "0x" +:+ rest) as Hno by (intros rest; discriminate).
  repeat (split; [reflexivity|]). split; [exact Hne|]. split; [exact Hno|].
  split; [reflexivity|]. split; [exact Hok|].
  exact (sendPayment_maker_unprefixed accepting codes messages engine unprefixedDeal
           client "abc" _ eq_refl eq_refl eq_refl eq_refl Hne Hno eq_refl Hok).
Defined.

Lemma sendPayment_without_token_address_witness :
  state takerDeal = SwapState.Active /\
  Js.truthy (destination takerDeal) = true /\
  (role takerDeal = SwapRole.Taker \/ Js.truthy (rPreimage takerDeal) = false) /\
  tokenAddresses (newClient []) !! makerCurrency takerDeal = None /\
  requests (sendPayment accepting codes messages engine takerDeal (newClient [])).2 =
    [transferRequest {| amount := "1000"; assetId := None; lockHash := "c0ffee";
                        timelock := Some 576 |}].
Proof.
  assert (role takerDeal = SwapRole.Taker \/ Js.truthy (rPreimage takerDeal) = false)
    as Hbranch by (left; reflexivity).
  repeat (split; [reflexivity|]). split; [exact Hbranch|]. split; [reflexivity|].
  exact (proj1 (sendPayment_without_token_address accepting codes messages engine
                  takerDeal (newClient []) eq_refl eq_refl Hbranch eq_refl)).
Defined.

Lemma lookupPayment_query_witness :
  accepting (requests (set_status ClientStatus.Disconnected client))
    {| endpoint := "/hashlock-status/" +:+ "c0ffee"; method := "GET"; payload := None |} =
  accepting (requests client)
    {| endpoint := "/hashlock-status/" +:+ "c0ffee"; method := "GET"; payload := None |} /\
  (lookupPayment accepting "c0ffee" (set_status ClientStatus.Disconnected client)).1 =
  (lookupPayment accepting "c0ffee" client).1.
Proof.
  split; [reflexivity|].
  exact (proj2 (proj2 (proj2 (lookupPayment_query accepting "c0ffee" client)))
           (set_status ClientStatus.Disconnected client) eq_refl).
Defined.

Lemma channelBalance_of_currency_witness :
  "DAI" <> "" /\
  tokenAddresses client !! "DAI" = Some "0xda1" /\
  "0xda1" <> "" /\
  accepting (requests client)
    {| endpoint := "/balance/" +:+ "0xda1"; method := "GET"; payload := None |} =
    Responded (reply 200 (Some "0xdead") "PENDING") /\
  success (reply 200 (Some "0xdead") "PENDING") /\
  (exists v, body (reply 200 (Some "0xdead") "PENDING") = Json v /\
             Js.get v "freeBalance" = Some (Js.Str "0")) /\
  units "DAI" (Js.Str "0") = Resolved 1 /\
  channelBalance accepting units (Some "DAI") client =
    (Resolved {| balance := 1; pendingOpenBalance := 1; inactiveBalance := 0 |},
     push_request
       {| endpoint := "/balance/" +:+ "0xda1"; method := "GET"; payload := None |}
       client).
Proof.
  assert (success (reply 200 (Some "0xdead") "PENDING")) as Hok by (left; reflexivity).
  assert ("DAI" <> "") as Hne by discriminate.
  assert ("0xda1" <> "") as Hne' by discriminate.
  split; [exact Hne|]. split; [reflexivity|]. split; [exact Hne'|].
  split; [reflexivity|]. split; [exact Hok|].
  split; [eexists; split; reflexivity|]. split; [reflexivity|].
  exact (proj1 (proj1 (proj2 (channelBalance_of_currency accepting units "DAI" client Hne))
                  "0xda1" _ eq_refl Hne' eq_refl Hok)
           _ _ 1 eq_refl eq_refl eq_refl).
Defined.

Lemma getConnextInfo_reports_witness :
  getConnextInfo accepting messages engine true None "no active channels" client =
    (Resolved {| ConnextInfo.chain := "connext";
                 ConnextInfo.status := Js.Str "connext is disabled";
                 ConnextInfo.channels := None; ConnextInfo.address := None;
                 ConnextInfo.version := None |}, client) /\
  conflicting (requests client) config =
    Responded {| statusCode := 409; statusMessage := "Conflict";
                 body := Json (Js.Obj []) |} /\
  Js.get (Js.Obj []) "message" = Some Js.Undefined /\
  (getConnextInfo conflicting messages engine false None "no active channels" client).1 =
    Rejected (Raw (TypeError PropertyOfUndefined)).
Proof.
  split.
  - exact (proj1 (proj2 (proj2 (getConnextInfo_reports accepting messages engine true
                                  None "no active channels" client))) eq_refl).
  - do 2 (split; [reflexivity|]).
    destruct (getConnextInfo_reports conflicting messages engine false None
                "no active channels" client) as (_ & _ & _ & Henabled).
    destruct (Henabled eq_refl) as (_ & _ & Hanswer).
    destruct (Hanswer _ eq_refl) as (_ & _ & Hconflict).
    exact (Hconflict eq_refl _ _ eq_refl eq_refl (or_introl eq_refl)).
Defined.

(** *** The amount of a transfer, run *)

(** The amount of a transfer is the number as a template literal writes
    it: in full up to 21 digits, and with an exponent beyond. *)
Example amount_of_transfer :
  Js.numberToString 1000 = "1000" /\
  Js.numberToString (2 ^ 53) = "9007199254740992" /\
  Js.numberToString (2 ^ 64) = "18446744073709552000" /\
  Js.numberToString (10 ^ 21) = "1e+21" /\
  Js.numberToString (2 ^ 70) = "1.1805916207174113e+21" /\
  requests (sendPayment accepting codes messages engine largeDeal client).2 =
    [transferRequest {| amount := "1e+21"; assetId := Some "0xda1";
                        lockHash := "c0ffee"; timelock := Some 576 |}].
Proof. repeat split; vm_compute; reflexivity. Qed.

(** A node that answers 204 to everything: the adapter connects, and is
    never told so. *)
Example connect_without_body :
  let run := initSpecific silent seeded in
  run.1 = Unsettled /\
  status run.2 = ClientStatus.NotInitialized /\
  emitted run.2 = [] /\
  map endpoint (requests run.2) = ["/connect"].
Proof. repeat split; reflexivity. Qed.

End OnMoreSamples.

(** * Properties of the order packet *)

Module JSONFacts.

Import JSON.
Local Open Scope list_scope.
Local Open Scope N_scope.

(** *** String literals *)

Lemma hexValue_hexDigit d : d < 16 -> hexValue (hexDigit d) = Some d.
Proof.
  intros Hd.
  assert (In d [0; 1; 2; 3; 4; 5; 6; 7; 8; 9; 10; 11; 12; 13; 14; 15]) as Hin.
  { simpl. lia. }
  simpl in Hin.
  repeat (destruct Hin as [<- | Hin]; [reflexivity|]). destruct Hin.
Qed.

Lemma hex4_unicodeEscape c tail acc :
  c < 65536 ->
  parseChars (unicodeEscape c ++ tail) acc = parseChars tail (c :: acc).
Proof.
  intros Hc. unfold unicodeEscape. cbn [app parseChars].
  change (92 =? 34) with false. change (92 =? 92) with true.
  change (117 =? 117) with true. cbv beta iota.
  unfold hex4.
  rewrite !hexValue_hexDigit by (apply N.mod_lt; lia).
  replace (4096 * (c / 4096 mod 16) + 256 * (c / 256 mod 16)
           + 16 * (c / 16 mod 16) + c mod 16) with c; [done|].
  zify. Z.to_euclidean_division_equations. lia.
Qed.

Lemma parseChars_plain c tail acc :
  32 <= c -> c <> 34 -> c <> 92 ->
  parseChars (c :: tail) acc = parseChars tail (c :: acc).
Proof.
  intros H32 H34 H92. cbn [parseChars].
  destruct (N.eqb_spec c 34); [done|].
  destruct (N.eqb_spec c 92); [done|].
  destruct (N.ltb_spec c 32); [lia|]. done.
Qed.

Lemma parseChars_quoteUnit c tail acc :
  parseChars (quoteUnit c ++ tail) acc = parseChars tail (c :: acc).
Proof.
  unfold quoteUnit.
  repeat (match goal with
          | |- context [if ?x =? ?y then _ else _] =>
              destruct (N.eqb_spec x y) as [->|]; [reflexivity|]
          end).
  destruct (N.ltb_spec c 32).
  - apply hex4_unicodeEscape. lia.
  - by apply parseChars_plain.
Qed.

Lemma surrogate_plain c :
  isLeadingSurrogate c || isTrailingSurrogate c = true ->
  32 <= c /\ c <> 34 /\ c <> 92 /\ c < 65536.
Proof.
  unfold isLeadingSurrogate, isTrailingSurrogate.
  rewrite orb_true_iff, !andb_true_iff, !N.leb_le. lia.
Qed.

(** Reading a quoted string gives the string back. *)
Lemma parseChars_quoteUnits s : forall tail acc,
  parseChars (quoteUnits s ++ 34 :: tail) acc = Some (rev acc ++ s, tail).
Proof.
  assert (forall n s, (length s <= n)%nat -> forall tail acc,
            parseChars (quoteUnits s ++ 34 :: tail) acc = Some (rev acc ++ s, tail))
    as Hn; [|by apply (Hn (length s))].
  clear s. induction n as [|n IH]; intros s Hlen tail acc.
  { destruct s; [|simpl in Hlen; lia]. cbn. by rewrite app_nil_r. }
  destruct s as [|c r]; [cbn; by rewrite app_nil_r|].
  assert (forall r', (length r' <= n)%nat ->
            parseChars (quoteUnits r' ++ 34 :: tail) (c :: acc) =
            Some (rev acc ++ c :: r', tail)) as Hstep.
  { intros r' Hr'. rewrite IH by done. cbn [rev]. by rewrite <- app_assoc. }
  simpl in Hlen. cbn [quoteUnits].
  destruct (isLeadingSurrogate c) eqn:Hlead.
  - destruct (surrogate_plain c) as (H32 & H34 & H92 & H16); [by rewrite Hlead|].
    destruct r as [|d r'].
    + rewrite hex4_unicodeEscape by done. cbn. done.
    + destruct (isTrailingSurrogate d) eqn:Htrail.
      * destruct (surrogate_plain d) as (D32 & D34 & D92 & _);
          [rewrite Htrail; apply orb_true_r|].
        cbn [app]. rewrite !parseChars_plain by done.
        simpl in Hlen. rewrite IH by lia. cbn [rev]. by rewrite <- !app_assoc.
      * rewrite <- app_assoc, hex4_unicodeEscape by done. apply Hstep. lia.
  - destruct (isTrailingSurrogate c) eqn:Htrail.
    + destruct (surrogate_plain c) as (H32 & H34 & H92 & H16);
        [rewrite Htrail; apply orb_true_r|].
      rewrite <- app_assoc, hex4_unicodeEscape by done. apply Hstep. lia.
    + rewrite <- app_assoc, parseChars_quoteUnit. apply Hstep. lia.
Qed.

Lemma isNumberChar_dispatch c :
  isNumberChar c = true ->
  isWhiteSpace c = false /\ (c =? 123) = false /\ (c =? 91) = false /\
  (c =? 34) = false /\ (c =? 116) = false /\ (c =? 102) = false /\
  (c =? 110) = false.
Proof.
  unfold isNumberChar, isWhiteSpace.
  rewrite !orb_true_iff, andb_true_iff, !N.leb_le, !N.eqb_eq.
  intros Hc. rewrite !orb_false_iff, !N.eqb_neq. lia.
Qed.

(** The token of a printed number ends where a character that is not of a
    number begins. *)
Lemma numberToken_app tok c tail :
  forallb isNumberChar tok = true -> isNumberChar c = false ->
  numberToken (tok ++ c :: tail) = (tok, c :: tail).
Proof.
  intros Htok Hc. induction tok as [|a tok IH]; cbn [app numberToken].
  - by rewrite Hc.
  - cbn [forallb] in Htok. apply andb_true_iff in Htok as [-> Htok].
    by rewrite IH.
Qed.

Section Values.

Context {F : Type} `{NumberSyntax F}.
Hypothesis roundTrip : NumberRoundTrip F.

Lemma parseValue_string fuel s tail :
  parseValue (S fuel) (QuoteJSONString s ++ tail) = Some (Str s, tail).
Proof.
  unfold QuoteJSONString. cbn [app]. rewrite <- app_assoc. cbn [app].
  cbn [parseValue skipWhiteSpace].
  change (isWhiteSpace 34) with false. cbv beta iota.
  change (34 =? 123) with false. change (34 =? 91) with false.
  change (34 =? 34) with true. cbv beta iota.
  by rewrite parseChars_quoteUnits.
Qed.

Lemma parseValue_token fuel x c tail :
  isNumberChar c = false ->
  parseValue (S fuel) (NumberToString x ++ c :: tail) = Some (Num (Finite x), c :: tail).
Proof.
  intros Hc.
  destruct (printed_token F roundTrip x) as [Hne Htok].
  pose proof (numberToken_app _ c tail Htok Hc) as Hnum.
  pose proof (read_printed F roundTrip x) as Hread.
  destruct (NumberToString x) as [|a tok] eqn:E; [done|].
  cbn [forallb] in Htok. apply andb_true_iff in Htok as [Ha _].
  destruct (isNumberChar_dispatch a Ha) as (Hws & H1 & H2 & H3 & H4 & H5 & H6).
  cbn [app parseValue skipWhiteSpace]. rewrite Hws. cbv beta iota.
  rewrite H1, H2, H3, H4, H5, H6.
  cbn [app] in Hnum. rewrite Hnum. by rewrite Hread.
Qed.

Lemma parseValue_number fuel x c tail :
  match x with Finite _ | NegZero => True | _ => False end ->
  isNumberChar c = false ->
  parseValue (S fuel) (stringifyNumber x ++ c :: tail) =
  Some (Num (readBack x), c :: tail).
Proof.
  intros Hx Hc. destruct x; try done; cbn [stringifyNumber readBack];
    by apply parseValue_token.
Qed.

Lemma readBack_strictEquals x :
  match x with Finite _ | NegZero => True | _ => False end ->
  strictEqualsNumber (readBack x) x.
Proof. by destruct x. Qed.

Lemma parseMembers_unfold fuel o s :
  parseMembers (S fuel) o s =
  match skipWhiteSpace s with
  | q :: r =>
      if q =? 34 then
        match parseChars r [] with
        | Some (k, r1) =>
            match skipWhiteSpace r1 with
            | colon :: r2 =>
                if colon =? 58 then
                  match parseValue fuel r2 with
                  | Some (v, r3) =>
                      let o' := defineProperty k v o in
                      match skipWhiteSpace r3 with
                      | d :: r4 =>
                          if d =? 44 then parseMembers fuel o' r4
                          else if d =? 125 then Some (Obj o', r4)
                          else None
                      | [] => None
                      end
                  | None => None
                  end
                else None
            | [] => None
            end
        | None => None
        end
      else None
  | [] => None
  end.
Proof. reflexivity. Qed.

Lemma parseValue_object fuel k r :
  parseValue (S fuel) (123 :: QuoteJSONString k ++ r) =
  parseMembers fuel [] (QuoteJSONString k ++ r).
Proof. reflexivity. Qed.

(** One member of an object, followed by a comma or by the closing brace. *)
Lemma parseMembers_member fuel o k v text d tail :
  (d = 44 \/ d = 125) ->
  parseValue (S fuel) (text ++ d :: tail) = Some (v, d :: tail) ->
  parseMembers (S (S fuel)) o (QuoteJSONString k ++ 58 :: text ++ d :: tail) =
  if d =? 44 then parseMembers (S fuel) (defineProperty k v o) tail
  else Some (Obj (defineProperty k v o), tail).
Proof.
  intros Hd Hv.
  unfold QuoteJSONString. cbn [app]. rewrite <- app_assoc. cbn [app].
  rewrite parseMembers_unfold. cbn [skipWhiteSpace].
  change (isWhiteSpace 34) with false. cbv beta iota.
  change (34 =? 34) with true. cbv beta iota.
  rewrite parseChars_quoteUnits. cbn [rev app skipWhiteSpace].
  change (isWhiteSpace 58) with false. cbv beta iota.
  change (58 =? 58) with true. cbv beta iota.
  rewrite Hv. cbv zeta.
  destruct Hd as [-> | ->]; reflexivity.
Qed.

End Values.

End JSONFacts.

Module OrderPacketFacts.

Import JSON JSONFacts OrderPacket.
Local Open Scope list_scope.
Local Open Scope N_scope.

Section RoundTrip.

Context {F : Type} `{NumberSyntax F}.
Hypothesis roundTrip : NumberRoundTrip F.

(** The text of a packet. *)
Lemma toRaw_new (b : OrderPacketBody F) :
  toRaw (new b) =
  123 :: QuoteJSONString (units "id") ++ 58 :: QuoteJSONString (id b) ++
  44 :: QuoteJSONString (units "pairId") ++ 58 :: QuoteJSONString (pairId b) ++
  44 :: QuoteJSONString (units "quantity") ++ 58 :: stringifyNumber (quantity b) ++
  44 :: QuoteJSONString (units "price") ++ 58 :: stringifyNumber (price b) ++
  44 :: QuoteJSONString (units "invoice") ++ 58 :: QuoteJSONString (invoice b) ++
  [125].
Proof.
  unfold toRaw, new, bodyObject. cbn [body stringify separated].
  repeat (rewrite <- ?app_assoc; cbn [app]). reflexivity.
Qed.

Lemma parseValue_toRaw (b : OrderPacketBody F) fuel tail :
  finite (quantity b) -> finite (price b) ->
  parseValue (S (S (S (S (S (S (S fuel))))))) (toRaw (new b) ++ tail) =
  Some (parsedBody b, tail).
Proof.
  intros Hq Hp. rewrite toRaw_new.
  repeat (rewrite <- ?app_assoc; cbn [app]).
  rewrite parseValue_object.
  rewrite (parseMembers_member _ _ _ (Str (id b)) _ 44)
    by (auto using parseValue_string).
  rewrite (parseMembers_member _ _ _ (Str (pairId b)) _ 44)
    by (auto using parseValue_string).
  rewrite (parseMembers_member _ _ _ (Num (readBack (quantity b))) _ 44)
    by (auto using parseValue_number).
  rewrite (parseMembers_member _ _ _ (Num (readBack (price b))) _ 44)
    by (auto using parseValue_number).
  rewrite (parseMembers_member _ _ _ (Str (invoice b)) _ 125)
    by (auto using parseValue_string).
  reflexivity.
Qed.

Lemma length_toRaw (b : OrderPacketBody F) :
  (6 <= length (toRaw (new b)))%nat.
Proof.
  rewrite toRaw_new. unfold QuoteJSONString.
  repeat (rewrite ?length_app; cbn [app length]). lia.
Qed.

Lemma fromRaw_toRaw_new (b : OrderPacketBody F) :
  finite (quantity b) -> finite (price b) ->
  fromRaw (toRaw (new b)) = Some {| body := parsedBody b |}.
Proof.
  intros Hq Hp. unfold fromRaw, parse.
  pose proof (length_toRaw b) as Hlen.
  destruct (length (toRaw (new b))) as [|[|[|[|[|[|n]]]]]]; try lia.
  rewrite <- (app_nil_r (toRaw (new b))).
  by rewrite parseValue_toRaw.
Qed.

Lemma field_parsedBody (b : OrderPacketBody F) :
  let p := {| body := parsedBody b |} in
  field p "id" = Some (Str (id b)) /\
  field p "pairId" = Some (Str (pairId b)) /\
  field p "quantity" = Some (Num (readBack (quantity b))) /\
  field p "price" = Some (Num (readBack (price b))) /\
  field p "invoice" = Some (Str (invoice b)).
Proof. repeat split. Qed.

(** C10 (as amended).  For every order packet body whose quantity and price
    are finite numbers, and for numbers that are read back as they are
    written, parsing the serialised packet gives a packet whose [id],
    [pairId], [quantity], [price] and [invoice] are strictly equal to those
    of the body. *)
Theorem fromRaw_toRaw (b : OrderPacketBody F) :
  finite (quantity b) -> finite (price b) ->
  exists p,
    fromRaw (toRaw (new b)) = Some p /\
    fieldEquals p "id" (Str (id b)) /\
    fieldEquals p "pairId" (Str (pairId b)) /\
    fieldEquals p "quantity" (Num (quantity b)) /\
    fieldEquals p "price" (Num (price b)) /\
    fieldEquals p "invoice" (Str (invoice b)).
Proof.
  intros Hq Hp. exists {| body := parsedBody b |}.
  split; [by apply fromRaw_toRaw_new|].
  destruct (field_parsedBody b) as (Hid & Hpair & Hquantity & Hprice & Hinvoice).
  unfold fieldEquals.
  repeat split; eexists; (split; [eassumption|]); cbn [strictEquals];
    auto using readBack_strictEquals.
Qed.

End RoundTrip.

End OrderPacketFacts.

(** *** The integers are read back as they are written *)

Module IntegersFacts.

Import JSON Integers.
Local Open Scope list_scope.
Local Open Scope N_scope.

Lemma unitsUint_uintUnits d : unitsUint (uintUnits d) = Some d.
Proof. induction d; cbn [uintUnits unitsUint]; rewrite ?IHd; reflexivity. Qed.

Lemma uintUnits_digits d : forallb isNumberChar (uintUnits d) = true.
Proof. induction d; cbn [uintUnits forallb]; rewrite ?IHd; reflexivity. Qed.

Lemma uintUnits_head d :
  d <> Decimal.Nil -> exists c r, uintUnits d = c :: r /\ (c =? 45) = false.
Proof. destruct d; [done|..]; intros _; cbn [uintUnits]; eauto. Qed.

Lemma to_uint_nonnil p : Pos.to_uint p <> Decimal.Nil.
Proof. apply DecimalPos.Unsigned.to_uint_nonnil. Qed.

Lemma unitsInt_intUnits z : unitsInt (intUnits (Z.to_int z)) = Some (Z.to_int z).
Proof.
  destruct z as [|p|p]; cbn [Z.to_int intUnits].
  - reflexivity.
  - destruct (uintUnits_head _ (to_uint_nonnil p)) as (c & r & E & Hc).
    unfold unitsInt. rewrite E, Hc, <- E. by rewrite unitsUint_uintUnits.
  - unfold unitsInt. change (45 =? 45) with true. cbv iota.
    by rewrite unitsUint_uintUnits.
Qed.

Lemma roundTrip : NumberRoundTrip Z.
Proof.
  split; intros z; cbn [NumberToString StringToNumber syntax].
  - unfold toString. split.
    + destruct z as [|p|p]; cbn [Z.to_int intUnits]; try done.
      destruct (uintUnits_head _ (to_uint_nonnil p)) as (c & r & -> & _). done.
    + destruct (Z.to_int z); cbn [intUnits forallb]; by rewrite uintUnits_digits.
  - unfold ofString. fold (toString z). unfold toString at 1.
    rewrite unitsInt_intUnits, DecimalZ.of_to.
    by rewrite bool_decide_eq_true_2.
Qed.

End IntegersFacts.

(** *** The claim on the sample orders *)

Lemma fromRaw_toRaw_witness :
  JSON.NumberRoundTrip Z /\
  OrderPacket.finite (OrderPacket.quantity Integers.order) /\
  OrderPacket.finite (OrderPacket.price Integers.order) /\
  exists p,
    OrderPacket.fromRaw (OrderPacket.toRaw (OrderPacket.new Integers.order)) = Some p /\
    OrderPacket.fieldEquals p "id" (JSON.Str (OrderPacket.id Integers.order)) /\
    OrderPacket.fieldEquals p "pairId" (JSON.Str (OrderPacket.pairId Integers.order)) /\
    OrderPacket.fieldEquals p "quantity" (JSON.Num (OrderPacket.quantity Integers.order)) /\
    OrderPacket.fieldEquals p "price" (JSON.Num (OrderPacket.price Integers.order)) /\
    OrderPacket.fieldEquals p "invoice" (JSON.Str (OrderPacket.invoice Integers.order)).
Proof.
  split; [exact IntegersFacts.roundTrip|]. split; [exact I|]. split; [exact I|].
  exact (OrderPacketFacts.fromRaw_toRaw IntegersFacts.roundTrip Integers.order I I).
Defined.

(** C10, as the specification words it, is about every body.  The quantity
    of a body may be [NaN], though, which [JSON.stringify] writes as [null]:
    the packet read back has the quantity [null], which is not equal to the
    quantity of the body. *)
Lemma fromRaw_toRaw_NaN :
  exists p,
    OrderPacket.fromRaw (OrderPacket.toRaw (OrderPacket.new Integers.orderOfNaN)) = Some p /\
    OrderPacket.field p "quantity" = Some JSON.Null /\
    ~ OrderPacket.fieldEquals p "quantity"
        (JSON.Num (OrderPacket.quantity Integers.orderOfNaN)).
Proof.
  eexists. split; [vm_compute; reflexivity|]. split; [reflexivity|].
  intros (w & Hw & Heq). vm_compute in Hw. injection Hw as <-. exact Heq.
Qed.

(** The text of the sample order:
    [{"id":"1c3f","pairId":"LTC/BTC","quantity":5,"price":3,"invoice":"lnbc1"}],
    and of the order with the quantity [NaN], where [null] stands for the
    quantity. *)
Example toRaw_order :
  OrderPacket.toRaw (OrderPacket.new Integers.order) =
  [123; 34; 105; 100; 34; 58; 34; 49; 99; 51; 102; 34; 44;
   34; 112; 97; 105; 114; 73; 100; 34; 58; 34; 76; 84; 67; 47; 66; 84; 67; 34; 44;
   34; 113; 117; 97; 110; 116; 105; 116; 121; 34; 58; 53; 44;
   34; 112; 114; 105; 99; 101; 34; 58; 51; 44;
   34; 105; 110; 118; 111; 105; 99; 101; 34; 58; 34; 108; 110; 98; 99; 49; 34;
   125]%N.
Proof. reflexivity. Qed.

Example toRaw_orderOfNaN :
  OrderPacket.toRaw (OrderPacket.new Integers.orderOfNaN) =
  [123; 34; 105; 100; 34; 58; 34; 49; 99; 51; 102; 34; 44;
   34; 112; 97; 105; 114; 73; 100; 34; 58; 34; 76; 84; 67; 47; 66; 84; 67; 34; 44;
   34; 113; 117; 97; 110; 116; 105; 116; 121; 34; 58; 110; 117; 108; 108; 44;
   34; 112; 114; 105; 99; 101; 34; 58; 51; 44;
   34; 105; 110; 118; 111; 105; 99; 101; 34; 58; 34; 108; 110; 98; 99; 49; 34;
   125]%N.
Proof. reflexivity. Qed.

(** [JSON.parse] on a text with white space, an array, repeated and
    array-index keys: the last value of a key wins, and array indices come
    first. *)
Example parse_then_stringify :
  option_map JSON.stringify
    (JSON.parse (F:=Z) (JSON.units "{ 'b': [1, -20], '10': {}, '2': true, 'b': null }"))
  = None /\
  option_map JSON.stringify
    (JSON.parse (F:=Z)
       (JSON.units "{ " ++ JSON.QuoteJSONString (JSON.units "b") ++
        JSON.units ": [1, -20], " ++ JSON.QuoteJSONString (JSON.units "10") ++
        JSON.units ": {}, " ++ JSON.QuoteJSONString (JSON.units "2") ++
        JSON.units ": true, " ++ JSON.QuoteJSONString (JSON.units "b") ++
        JSON.units ": null }"))
  = Some (123%N :: JSON.QuoteJSONString (JSON.units "2") ++ JSON.units ":true," ++
          JSON.QuoteJSONString (JSON.units "10") ++ JSON.units ":{}," ++
          JSON.QuoteJSONString (JSON.units "b") ++ JSON.units ":null}")%list.
Proof. split; vm_compute; reflexivity. Qed.

(** * More properties of the order packet *)

Module OrderPacketMore.

Import JSON JSONFacts OrderPacket OrderPacketFacts OrderPacketRead.
Local Open Scope list_scope.
Local Open Scope N_scope.

Section AnyBody.

Context {F : Type} `{NumberSyntax F}.
Hypothesis roundTrip : NumberRoundTrip F.

Lemma parseValue_null fuel tail :
  parseValue (F:=F) (S fuel) (units "null" ++ 44 :: tail) = Some (Null, 44 :: tail).
Proof. reflexivity. Qed.

(** A number as [JSON.stringify] writes it, before a comma. *)
Lemma parseValue_written fuel x tail :
  parseValue (S fuel) (stringifyNumber x ++ 44 :: tail) = Some (readNumber x, 44 :: tail).
Proof.
  destruct x; try apply parseValue_null;
    by apply (parseValue_number roundTrip).
Qed.

Lemma parseValue_toRaw_any (b : OrderPacketBody F) fuel tail :
  parseValue (S (S (S (S (S (S (S fuel))))))) (toRaw (new b) ++ tail) =
  Some (readBody b, tail).
Proof.
  rewrite toRaw_new.
  repeat (rewrite <- ?app_assoc; cbn [app]).
  rewrite parseValue_object.
  rewrite (parseMembers_member _ _ _ (Str (id b)) _ 44)
    by (auto using parseValue_string).
  rewrite (parseMembers_member _ _ _ (Str (pairId b)) _ 44)
    by (auto using parseValue_string).
  rewrite (parseMembers_member _ _ _ (readNumber (quantity b)) _ 44)
    by (auto using parseValue_written).
  rewrite (parseMembers_member _ _ _ (readNumber (price b)) _ 44)
    by (auto using parseValue_written).
  rewrite (parseMembers_member _ _ _ (Str (invoice b)) _ 125)
    by (auto using parseValue_string).
  reflexivity.
Qed.

Lemma fromRaw_toRaw_any (b : OrderPacketBody F) :
  fromRaw (toRaw (new b)) = Some {| body := readBody b |}.
Proof.
  unfold fromRaw, parse.
  pose proof (length_toRaw b) as Hlen.
  destruct (length (toRaw (new b))) as [|[|[|[|[|[|n]]]]]]; try lia.
  rewrite <- (app_nil_r (toRaw (new b))).
  by rewrite parseValue_toRaw_any.
Qed.

Lemma stringify_readNumber x :
  stringify (readNumber x) = stringifyNumber x.
Proof. by destruct x. Qed.

(** X14.  [fromRaw] never fails on the text of a packet, whatever the body
    the packet was made of.  The packet read has the strings of the body; a
    quantity or price that is finite is read as a number strictly equal to
    it, and one that is not finite is read as [null]. *)
Theorem fromRaw_toRaw_total (b : OrderPacketBody F) :
  exists p,
    fromRaw (toRaw (new b)) = Some p /\
    field p "id" = Some (Str (id b)) /\
    field p "pairId" = Some (Str (pairId b)) /\
    field p "invoice" = Some (Str (invoice b)) /\
    (finite (quantity b) -> fieldEquals p "quantity" (Num (quantity b))) /\
    (~ finite (quantity b) -> field p "quantity" = Some Null) /\
    (finite (price b) -> fieldEquals p "price" (Num (price b))) /\
    (~ finite (price b) -> field p "price" = Some Null).
Proof.
  exists {| body := readBody b |}. split; [apply fromRaw_toRaw_any|].
  assert (forall x k,
            field {| body := readBody b |} k = Some (readNumber x) ->
            (finite x -> fieldEquals {| body := readBody b |} k (Num x)) /\
            (~ finite x -> field {| body := readBody b |} k = Some Null)) as Hnum.
  { intros x k Hk. split.
    - intros Hx. exists (readNumber x). split; [done|].
      destruct x; try done; cbn; auto.
    - intros Hx. rewrite Hk. destruct x; try done; by destruct Hx. }
  destruct (Hnum (quantity b) "quantity" eq_refl) as [Hq1 Hq2].
  destruct (Hnum (price b) "price" eq_refl) as [Hp1 Hp2].
  repeat split; done.
Qed.

(** X15.  A packet that is read and serialised again has the text it was
    read from: relaying a packet does not change it. *)
Theorem toRaw_fromRaw_toRaw (b : OrderPacketBody F) :
  exists p, fromRaw (toRaw (new b)) = Some p /\ toRaw p = toRaw (new b).
Proof.
  exists {| body := readBody b |}. split; [apply fromRaw_toRaw_any|].
  unfold toRaw, new, readBody, bodyObject. cbn [body stringify separated].
  by rewrite !stringify_readNumber.
Qed.

(** X16.  Two bodies with finite quantities and prices that have the same
    text are the same order: their strings are equal and their numbers
    strictly equal. *)
Theorem toRaw_injective (b1 b2 : OrderPacketBody F) :
  finite (quantity b1) -> finite (price b1) ->
  finite (quantity b2) -> finite (price b2) ->
  toRaw (new b1) = toRaw (new b2) ->
  id b1 = id b2 /\ pairId b1 = pairId b2 /\ invoice b1 = invoice b2 /\
  strictEqualsNumber (quantity b1) (quantity b2) /\
  strictEqualsNumber (price b1) (price b2).
Proof.
  intros Hq1 Hp1 Hq2 Hp2 Heq.
  pose proof (fromRaw_toRaw_any b1) as H1.
  rewrite Heq, fromRaw_toRaw_any in H1.
  injection H1 as Hid Hpair Hq Hp Hinv.
  assert (forall x y, finite x -> finite y -> readNumber x = readNumber y ->
                      strictEqualsNumber x y) as Hnum.
  { intros x y Hx Hy Hxy. destruct x, y; try done; cbn in *; congruence. }
  repeat split; auto.
Qed.

(** *** No control character in the text *)

Lemma hexDigit_printable d : printable (hexDigit d).
Proof. unfold printable, hexDigit. destruct (d <? 10); lia. Qed.

Lemma unicodeEscape_printable c : Forall printable (unicodeEscape c).
Proof.
  unfold unicodeEscape.
  repeat (apply Forall_cons; split; [first [apply hexDigit_printable | unfold printable; lia]|]).
  apply Forall_nil_2.
Qed.

Lemma quoteUnit_printable c : Forall printable (quoteUnit c).
Proof.
  unfold quoteUnit.
  repeat (match goal with
          | |- context [if ?x =? ?y then _ else _] =>
              destruct (N.eqb_spec x y);
              [repeat (apply Forall_cons; split; [unfold printable; lia|]);
               apply Forall_nil_2|]
          end).
  destruct (N.ltb_spec c 32); [apply unicodeEscape_printable|].
  apply Forall_cons. split; [done|apply Forall_nil_2].
Qed.

Lemma quoteUnits_printable s : Forall printable (quoteUnits s).
Proof.
  assert (forall n s, (length s <= n)%nat -> Forall printable (quoteUnits s)) as Hn;
    [|by apply (Hn (length s))].
  clear s. induction n as [|n IH]; intros s Hlen.
  { destruct s; [apply Forall_nil_2|simpl in Hlen; lia]. }
  destruct s as [|c r]; [apply Forall_nil_2|]. simpl in Hlen. cbn [quoteUnits].
  destruct (isLeadingSurrogate c) eqn:Hlead.
  - destruct (surrogate_plain c) as (H32 & _); [by rewrite Hlead|].
    destruct r as [|d r'].
    + apply unicodeEscape_printable.
    + destruct (isTrailingSurrogate d) eqn:Htrail.
      * destruct (surrogate_plain d) as (D32 & _); [rewrite Htrail; apply orb_true_r|].
        simpl in Hlen.
        apply Forall_cons. split; [done|]. apply Forall_cons. split; [done|].
        apply IH. lia.
      * apply Forall_app. split; [apply unicodeEscape_printable|]. apply IH. lia.
  - destruct (isTrailingSurrogate c).
    + apply Forall_app. split; [apply unicodeEscape_printable|]. apply IH. lia.
    + apply Forall_app. split; [apply quoteUnit_printable|]. apply IH. lia.
Qed.

Lemma QuoteJSONString_printable s : Forall printable (QuoteJSONString s).
Proof.
  unfold QuoteJSONString. apply Forall_cons. split; [unfold printable; lia|].
  apply Forall_app. split; [apply quoteUnits_printable|].
  apply Forall_cons. split; [unfold printable; lia|apply Forall_nil_2].
Qed.

Lemma isNumberChar_printable l :
  forallb isNumberChar l = true -> Forall printable l.
Proof.
  induction l as [|c l IH]; [intros _; apply Forall_nil_2|].
  cbn [forallb]. intros [Hc Hl]%andb_true_iff.
  apply Forall_cons. split; [|by apply IH].
  unfold isNumberChar in Hc. unfold printable.
  rewrite !orb_true_iff, andb_true_iff, !N.leb_le, !N.eqb_eq in Hc. lia.
Qed.

Lemma stringifyNumber_printable x : Forall printable (stringifyNumber x).
Proof.
  destruct x; cbn [stringifyNumber];
    try (apply isNumberChar_printable, (printed_token F roundTrip));
    repeat (apply Forall_cons; split; [unfold printable; cbn; lia|]);
    apply Forall_nil_2.
Qed.

(** X17.  The text of a packet holds no control character, whatever the
    strings of the body: no line feed, carriage return or NUL can end or
    split the packet on the wire. *)
Theorem toRaw_printable (b : OrderPacketBody F) :
  Forall printable (toRaw (new b)) /\
  ~ In 10 (toRaw (new b)) /\ ~ In 13 (toRaw (new b)) /\ ~ In 0 (toRaw (new b)).
Proof.
  assert (Forall printable (toRaw (new b))) as Hall.
  { rewrite toRaw_new.
    repeat first
      [ apply Forall_nil_2
      | apply Forall_app; split;
        [first [apply QuoteJSONString_printable | apply stringifyNumber_printable]|]
      | apply Forall_cons; split; [unfold printable; lia|] ]. }
  split; [done|].
  rewrite List.Forall_forall in Hall.
  repeat split; intros Hin; apply Hall in Hin; unfold printable in Hin; lia.
Qed.

End AnyBody.

End OrderPacketMore.

(** ** The properties on the sample orders *)

Lemma fromRaw_toRaw_total_witness :
  JSON.NumberRoundTrip Z /\
  ~ OrderPacket.finite (OrderPacket.quantity Integers.orderOfNaN) /\
  OrderPacket.finite (OrderPacket.price Integers.orderOfNaN) /\
  exists p,
    OrderPacket.fromRaw (OrderPacket.toRaw (OrderPacket.new Integers.orderOfNaN)) = Some p /\
    OrderPacket.field p "quantity" = Some JSON.Null /\
    OrderPacket.fieldEquals p "price" (JSON.Num (OrderPacket.price Integers.orderOfNaN)).
Proof.
  assert (~ OrderPacket.finite (OrderPacket.quantity Integers.orderOfNaN)) as Hq
    by (intros []).
  split; [exact IntegersFacts.roundTrip|]. split; [exact Hq|]. split; [exact I|].
  destruct (OrderPacketMore.fromRaw_toRaw_total IntegersFacts.roundTrip
              Integers.orderOfNaN)
    as (p & Hp & _ & _ & _ & _ & Hnull & Hprice & _).
  exists p. split; [exact Hp|]. split; [exact (Hnull Hq)|exact (Hprice I)].
Defined.

Lemma toRaw_fromRaw_toRaw_witness :
  JSON.NumberRoundTrip Z /\
  exists p,
    OrderPacket.fromRaw (OrderPacket.toRaw (OrderPacket.new Integers.orderOfNaN)) = Some p /\
    OrderPacket.toRaw p = OrderPacket.toRaw (OrderPacket.new Integers.orderOfNaN).
Proof.
  split; [exact IntegersFacts.roundTrip|].
  exact (OrderPacketMore.toRaw_fromRaw_toRaw IntegersFacts.roundTrip Integers.orderOfNaN).
Defined.

Lemma toRaw_injective_witness :
  JSON.NumberRoundTrip Z /\
  OrderPacket.finite (OrderPacket.quantity MorePackets.orderWithBreaks) /\
  OrderPacket.finite (OrderPacket.price MorePackets.orderWithBreaks) /\
  OrderPacket.finite (OrderPacket.quantity MorePackets.orderWithBreaks') /\
  OrderPacket.finite (OrderPacket.price MorePackets.orderWithBreaks') /\
  OrderPacket.toRaw (OrderPacket.new MorePackets.orderWithBreaks) =
    OrderPacket.toRaw (OrderPacket.new MorePackets.orderWithBreaks') /\
  JSON.strictEqualsNumber (OrderPacket.price MorePackets.orderWithBreaks)
    (OrderPacket.price MorePackets.orderWithBreaks').
Proof.
  split; [exact IntegersFacts.roundTrip|].
  repeat (split; [exact I|]). split; [reflexivity|].
  destruct (OrderPacketMore.toRaw_injective IntegersFacts.roundTrip
              MorePackets.orderWithBreaks MorePackets.orderWithBreaks' I I I I eq_refl)
    as (_ & _ & _ & _ & Hp).
  exact Hp.
Defined.

Lemma toRaw_printable_witness :
  JSON.NumberRoundTrip Z /\
  In 10%N (OrderPacket.id MorePackets.orderWithBreaks) /\
  ~ In 10%N (OrderPacket.toRaw (OrderPacket.new MorePackets.orderWithBreaks)).
Proof.
  split; [exact IntegersFacts.roundTrip|]. split; [left; reflexivity|].
  exact (proj1 (proj2 (OrderPacketMore.toRaw_printable IntegersFacts.roundTrip
                         MorePackets.orderWithBreaks))).
Defined.

(** The text of the order with the breaks: the id is written with the
    escapes of the line feed, the carriage return, NUL and the quotation
    mark, and the price, negative zero, as [0]. *)
Example toRaw_orderWithBreaks :
  OrderPacket.toRaw (OrderPacket.new MorePackets.orderWithBreaks) =
  ([123; 34; 105; 100; 34; 58;
    34; 92; 110; 92; 114; 92; 117; 48; 48; 48; 48; 92; 34; 34; 44]
   ++ JSON.QuoteJSONString (JSON.units "pairId") ++ 58
   :: JSON.QuoteJSONString (JSON.units "LTC/BTC") ++ 44
   :: JSON.QuoteJSONString (JSON.units "quantity") ++ [58; 53; 44]
   ++ JSON.QuoteJSONString (JSON.units "price") ++ [58; 48; 44]
   ++ JSON.QuoteJSONString (JSON.units "invoice") ++ 58
   :: JSON.QuoteJSONString (JSON.units "lnbc1") ++ [125])%N%list.
Proof. reflexivity. Qed.
